(** * A todo-list widget: the formatter, the store and the UI controller

    Shallow embedding of [src/js/main.js].  The three classes of the
    script ([TodoItemFormatter], [TodoManager], [UIManager]) become three
    modules; the browser facilities they call ([String.prototype.slice],
    [JSON.parse], [JSON.stringify], [localStorage], [classList]) are
    modelled in the modules [JS], [JSON] and [LocalStorage].  The class
    [ThemeSwitcher] shares nothing with them but the key-value store,
    where it uses a key of its own; it is the fourth module.

    Conventions.
    - A JavaScript string is a [string]; one character stands for one
      UTF-16 code unit (the model covers code units below 256).
    - [undefined] and [null] arguments are [None].
    - A method that mutates [this] takes the state and returns the new one,
      paired with the method's return value when it has one.
    - [Math.random().toString(36)] is an input of the environment: the
      rendering of each drawn number is passed to the method that draws it.
    - The page's elements are kept by content: the list body by its rows
      and the markup of their cells, the alert by its type and message.
    - [localStorage.setItem] never fails for lack of space. *)

From Stdlib Require Import ZArith NArith Ascii String List Bool Lia Permutation.
From stdpp Require Import base strings list gmap.

Import ListNotations.
Set Warnings "-register-all".
Local Open Scope string_scope.
Local Open Scope list_scope.

(* ===================================================================== *)
(** ** JavaScript strings *)
(* ===================================================================== *)

Module JS.

(** The double quote character (code 34). *)
Definition dquote : ascii := "034"%char.
Definition dq : string := String dquote EmptyString.

(** [s.length] *)
Definition length (s : string) : nat := String.length s.

(** [s.substring(from, to)] for [0 <= from <= to]: the characters at
    indices [from .. to-1], both ends clamped to the length of [s]. *)
Definition substring (from to : nat) (s : string) : string :=
  String.substring from (to - from) s.

(** [s.slice(from, to)] for [0 <= from <= to] (no negative index is
    used by the script): the same characters as [substring]. *)
Definition slice (from to : nat) (s : string) : string :=
  String.substring from (to - from) s.

(** [x || y] where [x] is a string or [undefined]/[null]: the empty
    string, [undefined] and [null] are falsy. *)
Definition or_else (x : option string) (y : string) : string :=
  match x with
  | Some s => if String.eqb s "" then y else s
  | None => y
  end.

(** [s.toLowerCase()] on code units below 256. *)
Definition lower_char (c : ascii) : ascii :=
  let n := N_of_ascii c in
  if ((65 <=? n) && (n <=? 90))%N then ascii_of_N (n + 32)
  else if ((192 <=? n) && (n <=? 222) && negb (n =? 215))%N then ascii_of_N (n + 32)
  else c.

Fixpoint toLowerCase (s : string) : string :=
  match s with
  | EmptyString => EmptyString
  | String c rest => String (lower_char c) (toLowerCase rest)
  end.

(** [classList.add(c)] and [classList.remove(c)] on a token list. *)
Definition classList_add (c : string) (l : list string) : list string :=
  if existsb (String.eqb c) l then l else l ++ [c].
Definition classList_remove (c : string) (l : list string) : list string :=
  List.filter (fun x => negb (String.eqb x c)) l.

End JS.

(* ===================================================================== *)
(** ** JSON texts and values *)
(* ===================================================================== *)

Module JSON.

(** A parsed JSON value.  A number keeps its decimal reading
    [(-1)^negative * mantissa * 10^exponent]; a string is its sequence
    of code units; an object is its list of members in source order. *)
Inductive value : Type :=
| JNull
| JBool (b : bool)
| JNumber (negative : bool) (mantissa : Z) (exponent : Z)
| JString (units : list N)
| JArray (elements : list value)
| JObject (members : list (list N * value)).

(** *** Lexical level *)

Definition is_ws (c : ascii) : bool :=
  let n := N_of_ascii c in
  (n =? 32)%N || (n =? 9)%N || (n =? 10)%N || (n =? 13)%N.

Fixpoint skip_ws (s : string) : string :=
  match s with
  | String c rest => if is_ws c then skip_ws rest else s
  | EmptyString => s
  end.

Definition digit_of (c : ascii) : option Z :=
  let n := Z.of_N (N_of_ascii c) in
  if (48 <=? n)%Z && (n <=? 57)%Z then Some (n - 48)%Z else None.

Definition hex_of (c : ascii) : option N :=
  let n := N_of_ascii c in
  if (48 <=? n)%N && (n <=? 57)%N then Some (n - 48)%N
  else if (65 <=? n)%N && (n <=? 70)%N then Some (n - 55)%N
  else if (97 <=? n)%N && (n <=? 102)%N then Some (n - 87)%N
  else None.

Definition hex4 (a b c d : ascii) : option N :=
  match hex_of a, hex_of b, hex_of c, hex_of d with
  | Some x, Some y, Some z, Some w => Some (((x * 16 + y) * 16 + z) * 16 + w)%N
  | _, _, _, _ => None
  end.

(** The code unit denoted by the character after a backslash. *)
Definition simple_escape (c : ascii) : option N :=
  if Ascii.eqb c JS.dquote then Some 34%N
  else if Ascii.eqb c "\" then Some 92%N
  else if Ascii.eqb c "/" then Some 47%N
  else if Ascii.eqb c "b" then Some 8%N
  else if Ascii.eqb c "f" then Some 12%N
  else if Ascii.eqb c "n" then Some 10%N
  else if Ascii.eqb c "r" then Some 13%N
  else if Ascii.eqb c "t" then Some 9%N
  else None.

Definition cons_unit (u : N) (r : option (list N * string)) : option (list N * string) :=
  match r with
  | Some (us, rest) => Some (u :: us, rest)
  | None => None
  end.

(** The characters of a string literal after its opening quote, up to
    and including the closing quote. *)
Fixpoint lex_string (s : string) : option (list N * string) :=
  match s with
  | EmptyString => None
  | String c rest =>
      if Ascii.eqb c JS.dquote then Some ([], rest)
      else if Ascii.eqb c "\" then
        match rest with
        | EmptyString => None
        | String e rest1 =>
            if Ascii.eqb e "u" then
              match rest1 with
              | String h1 (String h2 (String h3 (String h4 rest2))) =>
                  match hex4 h1 h2 h3 h4 with
                  | Some u => cons_unit u (lex_string rest2)
                  | None => None
                  end
              | _ => None
              end
            else
              match simple_escape e with
              | Some u => cons_unit u (lex_string rest1)
              | None => None
              end
        end
      else if (N_of_ascii c <? 32)%N then None
      else cons_unit (N_of_ascii c) (lex_string rest)
  end.

(** The longest run of decimal digits at the head of [s], read as a
    number, with how many digits it has. *)
Fixpoint span_digits (acc : Z) (count : nat) (s : string) : Z * nat * string :=
  match s with
  | String c rest =>
      match digit_of c with
      | Some d => span_digits (acc * 10 + d) (S count) rest
      | None => (acc, count, s)
      end
  | EmptyString => (acc, count, s)
  end.

(** [s] starts with the character [c]: what follows it. *)
Definition eat (c : ascii) (s : string) : option string :=
  match s with
  | String c' rest => if Ascii.eqb c c' then Some rest else None
  | EmptyString => None
  end.

(** A number: an optional minus sign; an integer part, either a single
    zero or a digit from 1 to 9 followed by any digits; an optional
    fraction, a dot and at least one digit; an optional exponent, [e]
    or [E], an optional sign and at least one digit. *)

Definition lex_minus (s : string) : bool * string :=
  match eat "-" s with
  | Some r => (true, r)
  | None => (false, s)
  end.

Definition lex_int (s : string) : option (Z * string) :=
  match s with
  | String c r =>
      match digit_of c with
      | Some 0%Z => Some (0%Z, r)
      | Some _ => let '(n, _, r') := span_digits 0 0 s in Some (n, r')
      | None => None
      end
  | EmptyString => None
  end.

(** The digits of the fraction extend the mantissa [i]; the result
    counts them. *)
Definition lex_frac (i : Z) (s : string) : option (Z * nat * string) :=
  match eat "." s with
  | Some r =>
      let '(m, k, r') := span_digits i 0 r in
      match k with
      | O => None
      | S _ => Some (m, k, r')
      end
  | None => Some (i, O, s)
  end.

Definition lex_exp_sign (s : string) : bool * string :=
  match eat "-" s, eat "+" s with
  | Some r, _ => (true, r)
  | None, Some r => (false, r)
  | None, None => (false, s)
  end.

Definition lex_exp_digits (s : string) : option (Z * string) :=
  let '(eneg, r1) := lex_exp_sign s in
  let '(e, n, r2) := span_digits 0 0 r1 in
  match n with
  | O => None
  | S _ => Some (if eneg then (- e)%Z else e, r2)
  end.

Definition lex_exp (s : string) : option (Z * string) :=
  match eat "e" s, eat "E" s with
  | Some r, _ => lex_exp_digits r
  | None, Some r => lex_exp_digits r
  | None, None => Some (0%Z, s)
  end.

Definition lex_number (s : string) : option (value * string) :=
  let '(neg, s1) := lex_minus s in
  match lex_int s1 with
  | None => None
  | Some (i, s2) =>
      match lex_frac i s2 with
      | None => None
      | Some (m, k, s3) =>
          match lex_exp s3 with
          | None => None
          | Some (e, s4) => Some (JNumber neg m (e - Z.of_nat k), s4)
          end
      end
  end.

(** [lit] is a prefix of [s]: what follows it. *)
Fixpoint strip_prefix (lit s : string) : option string :=
  match lit with
  | EmptyString => Some s
  | String a lit' =>
      match s with
      | String b s' => if Ascii.eqb a b then strip_prefix lit' s' else None
      | EmptyString => None
      end
  end.

(** *** Values *)

Inductive parsed (A : Type) : Type :=
| Parsed (a : A) (rest : string)
| SyntaxError
| OutOfFuel.
Arguments Parsed {A} a rest.
Arguments SyntaxError {A}.
Arguments OutOfFuel {A}.

Definition of_lexed {A B : Type} (f : A -> B) (r : option (A * string)) : parsed B :=
  match r with
  | Some (a, rest) => Parsed (f a) rest
  | None => SyntaxError
  end.

Definition keyword (lit : string) (v : value) (s : string) : parsed value :=
  match strip_prefix lit s with
  | Some rest => Parsed v rest
  | None => SyntaxError
  end.

(** [parse_value] reads one value after optional white space;
    [parse_elements] reads the elements of an array and its closing
    bracket, after the opening bracket of an array that is not empty;
    [parse_members] does the same for the members of an object.  Every
    call spends one unit of fuel. *)
Fixpoint parse_value (fuel : nat) (s : string) : parsed value :=
  match fuel with
  | O => OutOfFuel
  | S fuel' =>
      match skip_ws s with
      | EmptyString => SyntaxError
      | String c rest =>
          if Ascii.eqb c "n" then keyword "null" JNull (String c rest)
          else if Ascii.eqb c "t" then keyword "true" (JBool true) (String c rest)
          else if Ascii.eqb c "f" then keyword "false" (JBool false) (String c rest)
          else if Ascii.eqb c JS.dquote then of_lexed JString (lex_string rest)
          else if Ascii.eqb c "[" then
            match eat "]" (skip_ws rest) with
            | Some rest' => Parsed (JArray []) rest'
            | None =>
                match parse_elements fuel' rest with
                | Parsed vs rest' => Parsed (JArray vs) rest'
                | SyntaxError => SyntaxError
                | OutOfFuel => OutOfFuel
                end
            end
          else if Ascii.eqb c "{" then
            match eat "}" (skip_ws rest) with
            | Some rest' => Parsed (JObject []) rest'
            | None =>
                match parse_members fuel' rest with
                | Parsed ms rest' => Parsed (JObject ms) rest'
                | SyntaxError => SyntaxError
                | OutOfFuel => OutOfFuel
                end
            end
          else of_lexed id (lex_number (String c rest))
      end
  end
with parse_elements (fuel : nat) (s : string) : parsed (list value) :=
  match fuel with
  | O => OutOfFuel
  | S fuel' =>
      match parse_value fuel' s with
      | Parsed v rest =>
          match eat "]" (skip_ws rest), eat "," (skip_ws rest) with
          | Some rest', _ => Parsed [v] rest'
          | None, Some rest' =>
              match parse_elements fuel' rest' with
              | Parsed vs rest'' => Parsed (v :: vs) rest''
              | SyntaxError => SyntaxError
              | OutOfFuel => OutOfFuel
              end
          | None, None => SyntaxError
          end
      | SyntaxError => SyntaxError
      | OutOfFuel => OutOfFuel
      end
  end
with parse_members (fuel : nat) (s : string) : parsed (list (list N * value)) :=
  match fuel with
  | O => OutOfFuel
  | S fuel' =>
      match eat JS.dquote (skip_ws s) with
      | None => SyntaxError
      | Some rest =>
          match lex_string rest with
          | None => SyntaxError
          | Some (k, rest1) =>
              match eat ":" (skip_ws rest1) with
              | None => SyntaxError
              | Some rest2 =>
                  match parse_value fuel' rest2 with
                  | Parsed v rest3 =>
                      match eat "}" (skip_ws rest3), eat "," (skip_ws rest3) with
                      | Some rest4, _ => Parsed [(k, v)] rest4
                      | None, Some rest4 =>
                          match parse_members fuel' rest4 with
                          | Parsed ms rest5 => Parsed ((k, v) :: ms) rest5
                          | SyntaxError => SyntaxError
                          | OutOfFuel => OutOfFuel
                          end
                      | None, None => SyntaxError
                      end
                  | SyntaxError => SyntaxError
                  | OutOfFuel => OutOfFuel
                  end
              end
          end
      end
  end.

(** The fuel [parse_text] gives the parser: two units per character
    and one more (see [parse_value_fuel]). *)
Definition fuel_for (s : string) : nat := 2 * String.length s + 1.

(** The whole text is one value between optional white space. *)
Definition parse_text (s : string) : parsed value :=
  match parse_value (fuel_for s) s with
  | Parsed v rest =>
      match skip_ws rest with
      | EmptyString => Parsed v EmptyString
      | String _ _ => SyntaxError
      end
  | SyntaxError => SyntaxError
  | OutOfFuel => OutOfFuel
  end.

(** [JSON.parse(text)]: [None] stands for the [SyntaxError] it throws. *)
Definition parse (s : string) : option value :=
  match parse_text s with
  | Parsed v _ => Some v
  | _ => None
  end.

(** What a call of the parser on [s] with fuel [n] and result [r]
    guarantees, where [need] is the fuel that is always enough for [s]:
    a parsed value consumed at least one character, and with [need]
    units the call does not run out of fuel. *)
Definition fuel_ok {A : Type} (need : nat) (r : parsed A) (n : nat) (s : string) : Prop :=
  (forall a rest, r = Parsed a rest -> String.length rest < String.length s) /\
  (need <= n -> r <> OutOfFuel).

(** The number a decimal reading denotes is [0] when the mantissa is
    [0], and also when its magnitude is at most [2^-1075], half of the
    least positive double, which rounds to [0]. *)
Definition number_is_zero (mantissa exponent : Z) : bool :=
  if (mantissa =? 0)%Z then true
  else if (0 <=? exponent)%Z then false
  else (mantissa * 2 ^ 1075 <=? 10 ^ (- exponent))%Z.

(** [ToBoolean] of a parsed value. *)
Definition truthy (v : value) : bool :=
  match v with
  | JNull => false
  | JBool b => b
  | JNumber _ m e => negb (number_is_zero m e)
  | JString us => match us with [] => false | _ :: _ => true end
  | JArray _ => true
  | JObject _ => true
  end.

(** *** Serialisation *)

Definition hex_digit (n : N) : ascii :=
  ascii_of_N (if (n <? 10)%N then 48 + n else 87 + n).

(** [JSON.stringify] of one code unit inside a string literal. *)
Definition escape_char (c : ascii) : string :=
  let n := N_of_ascii c in
  if Ascii.eqb c JS.dquote then String "\" JS.dq
  else if Ascii.eqb c "\" then "\\"
  else if (n =? 8)%N then "\b"
  else if (n =? 9)%N then "\t"
  else if (n =? 10)%N then "\n"
  else if (n =? 12)%N then "\f"
  else if (n =? 13)%N then "\r"
  else if (n <? 32)%N then
    "\u00" ++ String (hex_digit (n / 16)) (String (hex_digit (n mod 16)) "")
  else String c "".

Fixpoint escape (s : string) : string :=
  match s with
  | EmptyString => EmptyString
  | String c rest => escape_char c ++ escape rest
  end.

(** [JSON.stringify(s)] for a string [s]. *)
Definition stringify_string (s : string) : string :=
  JS.dq ++ escape s ++ JS.dq.

(** [JSON.stringify(b)] for a boolean [b]. *)
Definition stringify_bool (b : bool) : string :=
  if b then "true" else "false".

(** One member [name:value] of an object, [value] already serialised. *)
Definition stringify_member (name value : string) : string :=
  stringify_string name ++ ":" ++ value.

(** *** Reading members and strings of a parsed value *)

Definition units_eqb (a b : list N) : bool :=
  if decide (a = b) then true else false.

Definition units_of_string (s : string) : list N :=
  List.map N_of_ascii (list_ascii_of_string s).

(** The string of a sequence of code units, when all are below 256. *)
Fixpoint string_of_units (us : list N) : option string :=
  match us with
  | [] => Some EmptyString
  | u :: us' =>
      if (u <? 256)%N then option_map (String (ascii_of_N u)) (string_of_units us')
      else None
  end.

(** [o[name]] for a parsed object: when a name occurs twice in the
    text, [JSON.parse] keeps the value of the last occurrence. *)
Fixpoint get (name : list N) (members : list (list N * value)) : option value :=
  match members with
  | [] => None
  | (k, v) :: rest =>
      match get name rest with
      | Some v' => Some v'
      | None => if units_eqb k name then Some v else None
      end
  end.

Definition get_string (name : string) (members : list (list N * value)) : option string :=
  match get (units_of_string name) members with
  | Some (JString us) => string_of_units us
  | _ => None
  end.

Definition get_bool (name : string) (members : list (list N * value)) : option bool :=
  match get (units_of_string name) members with
  | Some (JBool b) => Some b
  | _ => None
  end.

(** The text of the string literal for [s] followed by the text [k]. *)
Definition quoted (s k : string) : string :=
  String JS.dquote (escape s ++ String JS.dquote k).

End JSON.

(* ===================================================================== *)
(** ** The browser's key-value store *)
(* ===================================================================== *)

Module LocalStorage.

(** The stored items, and the history of the [setItem] calls made so
    far, the latest first. *)
Record t : Type := mk {
  items : gmap string string;
  setItem_calls : list (string * string)
}.

(** [localStorage.getItem(key)]: [None] is [null]. *)
Definition getItem (key : string) (ls : t) : option string :=
  items ls !! key.

(** [localStorage.setItem(key, value)] *)
Definition setItem (key value : string) (ls : t) : t :=
  {| items := <[key := value]> (items ls);
     setItem_calls := (key, value) :: setItem_calls ls |}.

(** A store holding [m], nothing written yet. *)
Definition of_items (m : gmap string string) : t :=
  {| items := m; setItem_calls := [] |}.

End LocalStorage.

(* ===================================================================== *)
(** ** class TodoItemFormatter *)
(* ===================================================================== *)

Module TodoItemFormatter.

Definition formatTask (task : string) : string :=
  if (14 <? JS.length task)%nat then JS.slice 0 14 task ++ "..." else task.

Definition formatDueDate (dueDate : option string) : string :=
  JS.or_else dueDate "No due date".

Definition formatStatus (completed : bool) : string :=
  if completed then "Completed" else "Pending".

End TodoItemFormatter.

(* ===================================================================== *)
(** ** class TodoManager *)
(* ===================================================================== *)

Module TodoManager.

(** The object literal of [addTodo]. *)
Record Todo : Type := mkTodo {
  id : string;
  task : string;
  dueDate : string;
  completed : bool;
  status : string
}.

(** [this.todos] and the global [localStorage]. *)
Record state : Type := mk {
  todos : list Todo;
  localStorage : LocalStorage.t
}.

Definition set_todos (l : list Todo) (st : state) : state :=
  {| todos := l; localStorage := localStorage st |}.

Definition set_task (updatedTask : string) (todo : Todo) : Todo :=
  {| id := id todo; task := updatedTask; dueDate := dueDate todo;
     completed := completed todo; status := status todo |}.

Definition set_completed (b : bool) (todo : Todo) : Todo :=
  {| id := id todo; task := task todo; dueDate := dueDate todo;
     completed := b; status := status todo |}.

(** [(t) => t.id === id] *)
Definition has_id (i : string) (t : Todo) : bool := String.eqb (id t) i.

(** [this.todos.find(p)] *)
Definition find (p : Todo -> bool) (l : list Todo) : option Todo := List.find p l.

(** The effect on the array of assigning to a field of the object that
    [find] returned: the first element that satisfies [p] is the one
    changed. *)
Fixpoint mutate_found (p : Todo -> bool) (f : Todo -> Todo) (l : list Todo) : list Todo :=
  match l with
  | [] => []
  | t :: rest => if p t then f t :: rest else t :: mutate_found p f rest
  end.

(** *** Persistence *)

(** [JSON.stringify] of a record, its members in creation order. *)
Definition stringify_todo (t : Todo) : string :=
  "{" ++ JSON.stringify_member "id" (JSON.stringify_string (id t))
  ++ "," ++ JSON.stringify_member "task" (JSON.stringify_string (task t))
  ++ "," ++ JSON.stringify_member "dueDate" (JSON.stringify_string (dueDate t))
  ++ "," ++ JSON.stringify_member "completed" (JSON.stringify_bool (completed t))
  ++ "," ++ JSON.stringify_member "status" (JSON.stringify_string (status t))
  ++ "}".

(** [JSON.stringify(this.todos)] *)
Definition stringify_todos (l : list Todo) : string :=
  "[" ++ String.concat "," (List.map stringify_todo l) ++ "]".

Definition saveToLocalStorage (st : state) : state :=
  {| todos := todos st;
     localStorage := LocalStorage.setItem "todos" (stringify_todos (todos st)) (localStorage st) |}.

(** A parsed value read as a record of the persisted layout. *)
Definition todo_of_json (v : JSON.value) : option Todo :=
  match v with
  | JSON.JObject ms =>
      match JSON.get_string "id" ms, JSON.get_string "task" ms,
            JSON.get_string "dueDate" ms, JSON.get_bool "completed" ms,
            JSON.get_string "status" ms with
      | Some i, Some t, Some d, Some c, Some s => Some (mkTodo i t d c s)
      | _, _, _, _, _ => None
      end
  | _ => None
  end.

Fixpoint todos_of_elements (vs : list JSON.value) : option (list Todo) :=
  match vs with
  | [] => Some []
  | v :: vs' =>
      match todo_of_json v, todos_of_elements vs' with
      | Some t, Some ts => Some (t :: ts)
      | _, _ => None
      end
  end.

(** A parsed value read as an array of records of the persisted layout. *)
Definition todos_of_json (v : JSON.value) : option (list Todo) :=
  match v with
  | JSON.JArray vs => todos_of_elements vs
  | _ => None
  end.

(** *** The constructor *)

(** How [new TodoManager(...)] completes. *)
Inductive construction : Type :=
| Constructed (st : state)
    (** [this.todos] is an array of records of the persisted layout *)
| ConstructedWith (v : JSON.value) (ls : LocalStorage.t)
    (** [this.todos] is some other parsed value *)
| ThrowsSyntaxError.
    (** [JSON.parse] threw *)

(** [JSON.parse(localStorage.getItem("todos"))]: a missing key gives
    [null], which [JSON.parse] converts to the text [null]. *)
Definition parse_stored (ls : LocalStorage.t) : option JSON.value :=
  JSON.parse (match LocalStorage.getItem "todos" ls with
              | Some text => text
              | None => "null"
              end).

(** [this.todos = JSON.parse(localStorage.getItem("todos")) || []] *)
Definition constructor (ls : LocalStorage.t) : construction :=
  match parse_stored ls with
  | None => ThrowsSyntaxError
  | Some v =>
      let todos_value := if JSON.truthy v then v else JSON.JArray [] in
      match todos_of_json todos_value with
      | Some l => Constructed {| todos := l; localStorage := ls |}
      | None => ConstructedWith todos_value ls
      end
  end.

(** *** The methods *)

(** [Math.random().toString(36).substring(2, 15) +
     Math.random().toString(36).substring(2, 15)]; [r1] and [r2] are the
    two renderings [Math.random().toString(36)]. *)
Definition getRandomId (r1 r2 : string) : string :=
  JS.substring 2 15 r1 ++ JS.substring 2 15 r2.

Definition addTodo (r1 r2 : string) (task : string) (dueDate : option string)
    (st : state) : state * Todo :=
  let newTodo :=
    {| id := getRandomId r1 r2;
       task := TodoItemFormatter.formatTask task;
       dueDate := TodoItemFormatter.formatDueDate dueDate;
       completed := false;
       status := "pending" |} in
  (saveToLocalStorage (set_todos (todos st ++ [newTodo]) st), newTodo).

(** Returns the record, or [None] for [undefined]. *)
Definition editTodo (i : string) (updatedTask : string) (st : state)
    : state * option Todo :=
  match find (has_id i) (todos st) with
  | Some todo =>
      (saveToLocalStorage
         (set_todos (mutate_found (has_id i) (set_task updatedTask) (todos st)) st),
       Some (set_task updatedTask todo))
  | None => (st, None)
  end.

Definition deleteTodo (i : string) (st : state) : state :=
  saveToLocalStorage
    (set_todos (List.filter (fun todo => negb (String.eqb (id todo) i)) (todos st)) st).

Definition toggleTodoStatus (i : string) (st : state) : state :=
  match find (has_id i) (todos st) with
  | Some todo =>
      saveToLocalStorage
        (set_todos
           (mutate_found (has_id i) (fun t => set_completed (negb (completed t)) t) (todos st))
           st)
  | None => st
  end.

Definition clearAllTodos (st : state) : state :=
  if (0 <? List.length (todos st))%nat then saveToLocalStorage (set_todos [] st) else st.

Definition filterTodos (status : string) (st : state) : list Todo :=
  if String.eqb status "all" then todos st
  else if String.eqb status "pending" then
    List.filter (fun todo => negb (completed todo)) (todos st)
  else if String.eqb status "completed" then
    List.filter (fun todo => completed todo) (todos st)
  else [].

(** The value [JSON.parse] reads back from the serialisation of a record. *)
Definition to_json (t : Todo) : JSON.value :=
  JSON.JObject
    [ (JSON.units_of_string "id", JSON.JString (JSON.units_of_string (id t)));
      (JSON.units_of_string "task", JSON.JString (JSON.units_of_string (task t)));
      (JSON.units_of_string "dueDate", JSON.JString (JSON.units_of_string (dueDate t)));
      (JSON.units_of_string "completed", JSON.JBool (completed t));
      (JSON.units_of_string "status", JSON.JString (JSON.units_of_string (status t))) ].

(** The text of a member whose value is the string [s], or the boolean
    [b], followed by the text [k]. *)
Definition string_member (name s k : string) : string :=
  JSON.quoted name (String ":" (JSON.quoted s k)).

Definition bool_member (name : string) (b : bool) (k : string) : string :=
  JSON.quoted name (String ":" (JSON.stringify_bool b ++ k)).

(** The text of a record followed by the text [k]. *)
Definition todo_text (t : Todo) (k : string) : string :=
  let m5 := string_member "status" (status t) (String "}" k) in
  let m4 := bool_member "completed" (completed t) (String "," m5) in
  let m3 := string_member "dueDate" (dueDate t) (String "," m4) in
  let m2 := string_member "task" (task t) (String "," m3) in
  String "{" (string_member "id" (id t) (String "," m2)).

(** The text of the records [t :: l] of an array, separated by commas,
    with the closing bracket, followed by the text [k]. *)
Fixpoint elements_text (t : Todo) (l : list Todo) (k : string) : string :=
  todo_text t
    match l with
    | [] => String "]" k
    | t' :: l' => String "," (elements_text t' l' k)
    end.

(** *** Reachable states *)

Definition ids (st : state) : list string := List.map id (todos st).

(** The stored text is the serialisation of [this.todos]. *)
Definition persisted (st : state) : Prop :=
  LocalStorage.getItem "todos" (localStorage st) = Some (stringify_todos (todos st)).

(** The [setItem] calls made between [st] and [st']. *)
Definition writes_since (st st' : state) (calls : list (string * string)) : Prop :=
  LocalStorage.setItem_calls (localStorage st') =
  calls ++ LocalStorage.setItem_calls (localStorage st).

(** The states the store goes through: constructed over a key-value
    store that holds no collection, then any sequence of its mutating
    methods. *)
Inductive reachable : state -> Prop :=
| reach_new ls :
    LocalStorage.getItem "todos" ls = None ->
    reachable {| todos := []; localStorage := ls |}
| reach_addTodo r1 r2 task dueDate st :
    reachable st -> reachable (fst (addTodo r1 r2 task dueDate st))
| reach_editTodo i updatedTask st :
    reachable st -> reachable (fst (editTodo i updatedTask st))
| reach_deleteTodo i st :
    reachable st -> reachable (deleteTodo i st)
| reach_toggleTodoStatus i st :
    reachable st -> reachable (toggleTodoStatus i st)
| reach_clearAllTodos st :
    reachable st -> reachable (clearAllTodos st).

End TodoManager.

(* ===================================================================== *)
(** ** class UIManager *)
(* ===================================================================== *)

Module UIManager.

(** One [<tr class="todo-item">] of the list: its [data-id], the markup
    of its three text cells, and the id its three buttons pass to
    [handleEditTodo], [handleToggleStatus] and [handleDeleteTodo]. *)
Record row : Type := mkRow {
  data_id : string;
  task_cell : string;
  dueDate_cell : string;
  status_cell : string;
  button_id : string
}.

(** The content of [todosListBody]: the placeholder row "No task found"
    or one row per record. *)
Inductive list_body : Type :=
| NoTaskFound
| Rows (rows : list row).

(** The content of [alertMessage]: the box [alert alert-<type>] around
    the message. *)
Record alert : Type := mkAlert {
  alert_type : string;
  alert_message : string
}.

(** The click listeners the script registers on [addBtn]. *)
Inductive listener : Type :=
| HandleAddTodo
| HandleUpdate.

Record state : Type := mk {
  todoManager : TodoManager.state;
  taskInput_value : string;
  dateInput_value : string;
  addBtn_innerHTML : string;
  addBtn_click : list listener;
  todosListBody : list_body;
  alertMessage : option alert;
  alertMessage_classList : list string;
  (** the delays of the [setTimeout] callbacks not yet run *)
  timeouts : list nat
}.

Definition set_todoManager (m : TodoManager.state) (ui : state) : state :=
  mk m (taskInput_value ui) (dateInput_value ui) (addBtn_innerHTML ui) (addBtn_click ui)
     (todosListBody ui) (alertMessage ui) (alertMessage_classList ui) (timeouts ui).

Definition set_inputs (task date : string) (ui : state) : state :=
  mk (todoManager ui) task date (addBtn_innerHTML ui) (addBtn_click ui)
     (todosListBody ui) (alertMessage ui) (alertMessage_classList ui) (timeouts ui).

Definition set_addBtn (html : string) (ls : list listener) (ui : state) : state :=
  mk (todoManager ui) (taskInput_value ui) (dateInput_value ui) html ls
     (todosListBody ui) (alertMessage ui) (alertMessage_classList ui) (timeouts ui).

Definition set_todosListBody (b : list_body) (ui : state) : state :=
  mk (todoManager ui) (taskInput_value ui) (dateInput_value ui) (addBtn_innerHTML ui)
     (addBtn_click ui) b (alertMessage ui) (alertMessage_classList ui) (timeouts ui).

Definition set_alert (a : option alert) (classes : list string) (ts : list nat)
    (ui : state) : state :=
  mk (todoManager ui) (taskInput_value ui) (dateInput_value ui) (addBtn_innerHTML ui)
     (addBtn_click ui) (todosListBody ui) a classes ts.

(** The row [displayTodos] writes for one record. *)
Definition display_row (todo : TodoManager.Todo) : row :=
  {| data_id := TodoManager.id todo;
     task_cell := TodoItemFormatter.formatTask (TodoManager.task todo);
     dueDate_cell := TodoItemFormatter.formatDueDate (Some (TodoManager.dueDate todo));
     status_cell := TodoItemFormatter.formatStatus (TodoManager.completed todo);
     button_id := TodoManager.id todo |}.

Definition displayTodos (todos : list TodoManager.Todo) (ui : state) : state :=
  match todos with
  | [] => set_todosListBody NoTaskFound ui
  | _ :: _ => set_todosListBody (Rows (List.map display_row todos)) ui
  end.

Definition showAllTodos (ui : state) : state :=
  displayTodos (TodoManager.filterTodos "all" (todoManager ui)) ui.

(** Replaces the alert, shows it, and schedules the callback that
    hides it after 3000 ms. *)
Definition showAlertMessage (message type : string) (ui : state) : state :=
  set_alert (Some {| alert_type := type; alert_message := message |})
    (JS.classList_add "show" (JS.classList_remove "hide" (alertMessage_classList ui)))
    (timeouts ui ++ [3000])
    ui.

(** The callback of [setTimeout] runs: the oldest pending one. *)
Definition run_timeout (ui : state) : state :=
  match timeouts ui with
  | [] => ui
  | _ :: ts =>
      set_alert (alertMessage ui)
        (JS.classList_add "hide" (JS.classList_remove "show" (alertMessage_classList ui)))
        ts ui
  end.

(** [r1] and [r2] are read only when a record is added. *)
Definition handleAddTodo (r1 r2 : string) (ui : state) : state :=
  let task := taskInput_value ui in
  let dueDate := dateInput_value ui in
  if String.eqb task "" then
    showAlertMessage "Please enter a task" "error" ui
  else
    let '(m, newTodo) := TodoManager.addTodo r1 r2 task (Some dueDate) (todoManager ui) in
    let ui1 := showAllTodos (set_todoManager m ui) in
    let ui2 := set_inputs "" "" ui1 in
    showAlertMessage "Task added successfully" "success" ui2.

Definition handleClearAllTodos (ui : state) : state :=
  let ui1 := set_todoManager (TodoManager.clearAllTodos (todoManager ui)) ui in
  showAlertMessage "All todos cleared successfully" "success" (showAllTodos ui1).

Definition listener_eqb (a b : listener) : bool :=
  match a, b with
  | HandleAddTodo, HandleAddTodo => true
  | HandleUpdate, HandleUpdate => true
  | _, _ => false
  end.

(** Removes one registration of [l], as [removeEventListener] removes
    the one closure it is given. *)
Fixpoint remove_listener (l : listener) (ls : list listener) : list listener :=
  match ls with
  | [] => []
  | x :: rest => if listener_eqb x l then rest else x :: remove_listener l rest
  end.

(** The closure [handleUpdate] of [handleEditTodo]. *)
Definition handleUpdate (ui : state) : state :=
  let ui1 := set_addBtn "<i class='bx bx-plus bx-sm'></i>" (addBtn_click ui) ui in
  let ui2 := showAlertMessage "Todo updated successfully" "success" ui1 in
  let ui3 := showAllTodos ui2 in
  set_addBtn (addBtn_innerHTML ui3) (remove_listener HandleUpdate (addBtn_click ui3)) ui3.

Definition handleEditTodo (i : string) (ui : state) : state :=
  match TodoManager.find (TodoManager.has_id i) (TodoManager.todos (todoManager ui)) with
  | Some todo =>
      let ui1 := set_inputs (TodoManager.task todo) (dateInput_value ui) ui in
      let ui2 := set_todoManager (TodoManager.deleteTodo i (todoManager ui1)) ui1 in
      set_addBtn "<i class='bx bx-check bx-sm'></i>" (addBtn_click ui2 ++ [HandleUpdate]) ui2
  | None => ui
  end.

Definition handleToggleStatus (i : string) (ui : state) : state :=
  showAllTodos (set_todoManager (TodoManager.toggleTodoStatus i (todoManager ui)) ui).

Definition handleDeleteTodo (i : string) (ui : state) : state :=
  let ui1 := set_todoManager (TodoManager.deleteTodo i (todoManager ui)) ui in
  showAllTodos (showAlertMessage "Todo deleted successfully" "success" ui1).

Definition handleFilterTodos (status : string) (ui : state) : state :=
  displayTodos (TodoManager.filterTodos status (todoManager ui)) ui.

(** *** The events of [addEventListeners] *)

Definition run_listener (r1 r2 : string) (l : listener) (ui : state) : state :=
  match l with
  | HandleAddTodo => handleAddTodo r1 r2 ui
  | HandleUpdate => handleUpdate ui
  end.

(** A click on [addBtn] runs the listeners registered when the click
    is dispatched, in registration order. *)
Definition click_addBtn (r1 r2 : string) (ui : state) : state :=
  List.fold_left (fun u l => run_listener r1 r2 l u) (addBtn_click ui) ui.

(** [keyup] on the task input. *)
Definition keyup_taskInput (r1 r2 : string) (keyCode : nat) (ui : state) : state :=
  if (keyCode =? 13)%nat && (0 <? JS.length (taskInput_value ui))%nat
  then handleAddTodo r1 r2 ui
  else ui.

(** The constructor, given the store and what the page's elements
    hold: it registers [handleAddTodo] and shows all records. *)
Definition constructor (m : TodoManager.state) (task date addBtn_html : string)
    (classes : list string) : state :=
  showAllTodos (mk m task date addBtn_html [HandleAddTodo] NoTaskFound None classes []).

(** What [displayTodos] makes the list body hold for the records [l]. *)
Definition body_of (l : list TodoManager.Todo) : list_body :=
  match l with
  | [] => NoTaskFound
  | _ :: _ => Rows (List.map display_row l)
  end.

(** Every task text the store holds is already formatted. *)
Definition formatted (m : TodoManager.state) : Prop :=
  Forall (fun k => TodoItemFormatter.formatTask k = k)
         (List.map TodoManager.task (TodoManager.todos m)).

(** *** Runs of the page *)

(** What the user and the timer can do. *)
Inductive event : Type :=
| Type_task (text : string)
| Pick_date (date : string)
| Click_addBtn (r1 r2 : string)
| Keyup_taskInput (r1 r2 : string) (keyCode : nat)
| Click_deleteAllBtn
| Click_filter (textContent : string)
| Click_edit (i : string)
| Click_toggle (i : string)
| Click_delete (i : string)
| Timeout.

Definition step (e : event) (ui : state) : state :=
  match e with
  | Type_task text => set_inputs text (dateInput_value ui) ui
  | Pick_date date => set_inputs (taskInput_value ui) date ui
  | Click_addBtn r1 r2 => click_addBtn r1 r2 ui
  | Keyup_taskInput r1 r2 keyCode => keyup_taskInput r1 r2 keyCode ui
  | Click_deleteAllBtn => handleClearAllTodos ui
  | Click_filter textContent => handleFilterTodos (JS.toLowerCase textContent) ui
  | Click_edit i => handleEditTodo i ui
  | Click_toggle i => handleToggleStatus i ui
  | Click_delete i => handleDeleteTodo i ui
  | Timeout => run_timeout ui
  end.

Definition run (es : list event) (ui : state) : state :=
  List.fold_left (fun u e => step e u) es ui.

(** The page as loaded over a key-value store that holds no collection. *)
Definition loaded (ls : LocalStorage.t) (task date addBtn_html : string)
    (classes : list string) : state :=
  constructor {| TodoManager.todos := []; TodoManager.localStorage := ls |}
    task date addBtn_html classes.

End UIManager.

(* ===================================================================== *)
(** ** class ThemeSwitcher *)
(* ===================================================================== *)

Module ThemeSwitcher.

(** The [data-theme] attribute of [this.html] ([None] when it has none)
    and the global [localStorage]. *)
Record state : Type := mk {
  data_theme : option string;
  localStorage : LocalStorage.t
}.

(** The string an attribute value or [null] is converted to when it is
    passed to [setAttribute] or [setItem]. *)
Definition to_string (v : option string) : string :=
  match v with
  | Some s => s
  | None => "null"
  end.

Definition setTheme (themeName : option string) (st : state) : state :=
  {| data_theme := Some (to_string themeName); localStorage := localStorage st |}.

Definition saveThemeToLocalStorage (themeName : option string) (st : state) : state :=
  {| data_theme := data_theme st;
     localStorage := LocalStorage.setItem "theme" (to_string themeName) (localStorage st) |}.

Definition getThemeFromLocalStorage (st : state) : option string :=
  LocalStorage.getItem "theme" (localStorage st).

(** [init], the listeners apart: [if (theme)] takes a stored name that
    is not the empty string. *)
Definition init (st : state) : state :=
  match getThemeFromLocalStorage st with
  | Some theme => if String.eqb theme "" then st else setTheme (Some theme) st
  | None => st
  end.

(** The click listener of a theme element; [attr] is what
    [theme.getAttribute("theme")] returns, [None] for [null]. *)
Definition click (attr : option string) (st : state) : state :=
  saveThemeToLocalStorage attr (setTheme attr st).

(** [new ThemeSwitcher(themes, html)] on a page whose [html] element
    has the [data-theme] attribute [html_theme]. *)
Definition constructor (html_theme : option string) (ls : LocalStorage.t) : state :=
  init {| data_theme := html_theme; localStorage := ls |}.

End ThemeSwitcher.

(* ===================================================================== *)
(** ** Sample states *)
(* ===================================================================== *)

Module Scenario.
Import TodoManager.

(** A key-value store that holds nothing. *)
Definition empty_storage : LocalStorage.t := LocalStorage.of_items ∅.

(** A key-value store whose collection is not a JSON text. *)
Definition malformed_storage : LocalStorage.t :=
  LocalStorage.of_items {[ "todos" := "{" ]}.

Definition store0 : state := {| todos := []; localStorage := empty_storage |}.

(** [addTodo("Buy milk", "2024-01-01")] *)
Definition store1 : state :=
  fst (addTodo "0.4fzyo82mvyr" "0.k2j5x9" "Buy milk" (Some "2024-01-01") store0).

(** [addTodo("This is a very long task description")] *)
Definition store2 : state :=
  fst (addTodo "0.i" "0.abc" "This is a very long task description" None store1).

(** Two records added while [Math.random()] returns 0.5 four times,
    which [toString(36)] renders as [0.i]. *)
Definition first_added : state :=
  fst (addTodo "0.i" "0.i" "first" None store0).

Definition collided : state :=
  fst (addTodo "0.i" "0.i" "second" None first_added).

(** The page over [store2], with an empty task input. *)
Definition page : UIManager.state :=
  UIManager.constructor store2 "" "" "<i class='bx bx-plus bx-sm'></i>" ["hide"].

End Scenario.

(* ===================================================================== *)
(** ** Properties *)
(* ===================================================================== *)

(** *** The parser never runs out of fuel *)

Section ParserFuel.
Import JSON.

Lemma skip_ws_length (s : string) : String.length (skip_ws s) <= String.length s.
Proof.
  induction s as [|c s IH]; simpl; [lia|].
  destruct (is_ws c); simpl; lia.
Qed.

Lemma cons_unit_rest u r us rest :
  cons_unit u r = Some (us, rest) -> exists us', r = Some (us', rest).
Proof.
  destruct r as [[us' rest']|]; simpl; [|discriminate].
  intros [= _ <-]. eauto.
Qed.

Lemma lex_string_length (s : string) :
  forall us rest, lex_string s = Some (us, rest) -> String.length rest < String.length s.
Proof.
  remember (String.length s) as n eqn:Hn.
  revert s Hn. induction n as [n IH] using lt_wf_ind. intros s Hn us rest.
  destruct s as [|c s]; simpl; [discriminate|].
  destruct (Ascii.eqb c JS.dquote).
  { intros [= _ <-]. simpl in Hn. lia. }
  destruct (Ascii.eqb c "\").
  - destruct s as [|e s]; [discriminate|].
    destruct (Ascii.eqb e "u").
    + destruct s as [|h1 [|h2 [|h3 [|h4 s]]]]; try discriminate.
      destruct (hex4 h1 h2 h3 h4); [|discriminate].
      intros H. apply cons_unit_rest in H as [us' H].
      simpl in Hn. eapply (IH (String.length s)) in H; [|lia|reflexivity]. lia.
    + destruct (simple_escape e); [|discriminate].
      intros H. apply cons_unit_rest in H as [us' H].
      simpl in Hn. eapply (IH (String.length s)) in H; [|lia|reflexivity]. lia.
  - destruct (N_of_ascii c <? 32)%N; [discriminate|].
    intros H. apply cons_unit_rest in H as [us' H].
    simpl in Hn. eapply (IH (String.length s)) in H; [|lia|reflexivity]. lia.
Qed.

Lemma span_digits_length (s : string) :
  forall acc count m k rest,
    span_digits acc count s = (m, k, rest) -> String.length rest <= String.length s.
Proof.
  induction s as [|c s IH]; simpl; intros acc count m k rest.
  - intros [= _ _ <-]. simpl. lia.
  - destruct (digit_of c).
    + intros H. apply IH in H. lia.
    + intros [= _ _ <-]. simpl. lia.
Qed.

Lemma strip_prefix_length (lit s rest : string) :
  strip_prefix lit s = Some rest ->
  String.length rest + String.length lit = String.length s.
Proof.
  revert s. induction lit as [|a lit IH]; simpl; intros s.
  - intros [= <-]. lia.
  - destruct s as [|b s]; [discriminate|].
    destruct (Ascii.eqb a b); [|discriminate].
    intros H. apply IH in H. simpl. lia.
Qed.

Lemma eat_length (c : ascii) (s rest : string) :
  eat c s = Some rest -> S (String.length rest) = String.length s.
Proof.
  destruct s as [|c' r]; simpl; [discriminate|].
  destruct (Ascii.eqb c c'); [|discriminate]. by intros [= <-].
Qed.

Lemma lex_minus_length (s : string) :
  String.length (snd (lex_minus s)) <= String.length s.
Proof.
  unfold lex_minus. destruct (eat "-" s) as [r|] eqn:He; simpl; [|lia].
  apply eat_length in He. lia.
Qed.

Lemma lex_int_length (s : string) (i : Z) (rest : string) :
  lex_int s = Some (i, rest) -> String.length rest < String.length s.
Proof.
  destruct s as [|c r]; simpl; [discriminate|].
  destruct (digit_of c) as [d|] eqn:Hd; [|discriminate].
  assert (Hspan : (let '(n, _, r') := span_digits (0 * 10 + d) 1 r in Some (n, r'))
                  = Some (i, rest) -> String.length rest < S (String.length r)).
  { destruct (span_digits (0 * 10 + d) 1 r) as [[n k] r'] eqn:Hs.
    intros [= _ <-]. apply span_digits_length in Hs. lia. }
  destruct d; [intros [= _ <-]; lia | exact Hspan | exact Hspan].
Qed.

Lemma lex_frac_length (i : Z) (s : string) (m : Z) (k : nat) (rest : string) :
  lex_frac i s = Some (m, k, rest) -> String.length rest <= String.length s.
Proof.
  unfold lex_frac. destruct (eat "." s) as [r|] eqn:He.
  - apply eat_length in He.
    destruct (span_digits i 0 r) as [[m' k'] r'] eqn:Hs.
    destruct k'; [discriminate|]. intros [= _ _ <-].
    apply span_digits_length in Hs. lia.
  - intros [= _ _ <-]. lia.
Qed.

Lemma lex_exp_sign_length (s : string) :
  String.length (snd (lex_exp_sign s)) <= String.length s.
Proof.
  unfold lex_exp_sign.
  destruct (eat "-" s) as [r|] eqn:Hm; [apply eat_length in Hm; simpl; lia|].
  destruct (eat "+" s) as [r|] eqn:Hp; [apply eat_length in Hp; simpl; lia|].
  simpl. lia.
Qed.

Lemma lex_exp_digits_length (s : string) (e : Z) (rest : string) :
  lex_exp_digits s = Some (e, rest) -> String.length rest <= String.length s.
Proof.
  unfold lex_exp_digits. pose proof (lex_exp_sign_length s) as Hs.
  destruct (lex_exp_sign s) as [eneg r1]. simpl in Hs.
  destruct (span_digits 0 0 r1) as [[e' n] r2] eqn:Hd.
  destruct n; [discriminate|]. intros [= _ <-].
  apply span_digits_length in Hd. lia.
Qed.

Lemma lex_exp_length (s : string) (e : Z) (rest : string) :
  lex_exp s = Some (e, rest) -> String.length rest <= String.length s.
Proof.
  unfold lex_exp.
  destruct (eat "e" s) as [r|] eqn:H1.
  { apply eat_length in H1. intros H. apply lex_exp_digits_length in H. lia. }
  destruct (eat "E" s) as [r|] eqn:H2.
  { apply eat_length in H2. intros H. apply lex_exp_digits_length in H. lia. }
  intros [= _ <-]. lia.
Qed.

Lemma lex_number_length (s : string) (v : value) (rest : string) :
  lex_number s = Some (v, rest) -> String.length rest < String.length s.
Proof.
  unfold lex_number. pose proof (lex_minus_length s) as Hm.
  destruct (lex_minus s) as [neg s1]. simpl in Hm.
  destruct (lex_int s1) as [[i s2]|] eqn:Hi; [|discriminate].
  destruct (lex_frac i s2) as [[[m k] s3]|] eqn:Hf; [|discriminate].
  destruct (lex_exp s3) as [[e s4]|] eqn:He; [|discriminate].
  intros [= _ <-].
  apply lex_int_length in Hi. apply lex_frac_length in Hf. apply lex_exp_length in He.
  lia.
Qed.

Lemma keyword_length (lit : string) (v w : value) (s rest : string) :
  lit <> EmptyString ->
  keyword lit v s = Parsed w rest -> String.length rest < String.length s.
Proof.
  unfold keyword. intros Hlit.
  destruct (strip_prefix lit s) as [r|] eqn:Hp; [|discriminate].
  intros [= _ <-]. apply strip_prefix_length in Hp.
  destruct lit; [congruence|]. simpl in Hp. lia.
Qed.

Lemma parse_fuel (n : nat) :
  (forall s, fuel_ok (2 * String.length s + 1) (parse_value n s) n s) /\
  (forall s, fuel_ok (2 * String.length s + 2) (parse_elements n s) n s) /\
  (forall s, fuel_ok (2 * String.length s + 2) (parse_members n s) n s).
Proof.
  induction n as [|n (IHv & IHe & IHm)].
  { repeat split; simpl; try discriminate; lia. }
  split; [|split]; intros s; simpl.
  - (* parse_value *)
    pose proof (skip_ws_length s) as Hws.
    destruct (skip_ws s) as [|c rest]; [split; [discriminate|congruence]|].
    simpl in Hws.
    destruct (Ascii.eqb c "n").
    { split; [|unfold keyword; case_match; congruence].
      intros a r H. apply keyword_length in H; [simpl in H; lia|discriminate]. }
    destruct (Ascii.eqb c "t").
    { split; [|unfold keyword; case_match; congruence].
      intros a r H. apply keyword_length in H; [simpl in H; lia|discriminate]. }
    destruct (Ascii.eqb c "f").
    { split; [|unfold keyword; case_match; congruence].
      intros a r H. apply keyword_length in H; [simpl in H; lia|discriminate]. }
    destruct (Ascii.eqb c JS.dquote).
    { destruct (lex_string rest) as [[us r']|] eqn:Hl; simpl;
        (split; [|congruence]); [|discriminate].
      intros a r [= _ <-]. apply lex_string_length in Hl. lia. }
    destruct (Ascii.eqb c "[").
    { pose proof (skip_ws_length rest) as Hws'.
      destruct (eat "]" (skip_ws rest)) as [r'|] eqn:He.
      { apply eat_length in He. split; [|congruence]. intros a r [= _ <-]. lia. }
      destruct (IHe rest) as [Hlen Hfuel].
      destruct (parse_elements n rest) as [vs r'| |] eqn:Hp.
      - split; [|congruence]. intros a r [= _ <-]. specialize (Hlen vs r' eq_refl). lia.
      - split; [discriminate|congruence].
      - split; [discriminate|]. intros Hn. exfalso. apply Hfuel; [lia|reflexivity]. }
    destruct (Ascii.eqb c "{").
    { pose proof (skip_ws_length rest) as Hws'.
      destruct (eat "}" (skip_ws rest)) as [r'|] eqn:He.
      { apply eat_length in He. split; [|congruence]. intros a r [= _ <-]. lia. }
      destruct (IHm rest) as [Hlen Hfuel].
      destruct (parse_members n rest) as [ms r'| |] eqn:Hp.
      - split; [|congruence]. intros a r [= _ <-]. specialize (Hlen ms r' eq_refl). lia.
      - split; [discriminate|congruence].
      - split; [discriminate|]. intros Hn. exfalso. apply Hfuel; [lia|reflexivity]. }
    destruct (lex_number (String c rest)) as [[v r']|] eqn:Hl; simpl;
      (split; [|congruence]); [|discriminate].
    intros a r [= _ <-]. apply lex_number_length in Hl. simpl in Hl. lia.
  - (* parse_elements *)
    destruct (IHv s) as [Hlen Hfuel].
    destruct (parse_value n s) as [v rest| |] eqn:Hp.
    2: { split; [discriminate|congruence]. }
    2: { split; [discriminate|]. intros Hn. exfalso. apply Hfuel; [lia|reflexivity]. }
    specialize (Hlen v rest eq_refl). pose proof (skip_ws_length rest) as Hws.
    destruct (eat "]" (skip_ws rest)) as [r'|] eqn:He.
    { apply eat_length in He. split; [|congruence]. intros a r [= _ <-]. lia. }
    destruct (eat "," (skip_ws rest)) as [r'|] eqn:Hc.
    2: { split; [discriminate|congruence]. }
    apply eat_length in Hc.
    destruct (IHe r') as [Hlen' Hfuel'].
    destruct (parse_elements n r') as [vs r''| |] eqn:Hp'.
    + split; [|congruence]. intros a r [= _ <-]. specialize (Hlen' vs r'' eq_refl). lia.
    + split; [discriminate|congruence].
    + split; [discriminate|]. intros Hn. exfalso. apply Hfuel'; [lia|reflexivity].
  - (* parse_members *)
    pose proof (skip_ws_length s) as Hws.
    destruct (eat JS.dquote (skip_ws s)) as [rest|] eqn:Hq.
    2: { split; [discriminate|congruence]. }
    apply eat_length in Hq.
    destruct (lex_string rest) as [[k rest1]|] eqn:Hk.
    2: { split; [discriminate|congruence]. }
    apply lex_string_length in Hk. pose proof (skip_ws_length rest1) as Hws1.
    destruct (eat ":" (skip_ws rest1)) as [rest2|] eqn:Hcolon.
    2: { split; [discriminate|congruence]. }
    apply eat_length in Hcolon.
    destruct (IHv rest2) as [Hlen Hfuel].
    destruct (parse_value n rest2) as [v rest3| |] eqn:Hp.
    2: { split; [discriminate|congruence]. }
    2: { split; [discriminate|]. intros Hn. exfalso. apply Hfuel; [lia|reflexivity]. }
    specialize (Hlen v rest3 eq_refl). pose proof (skip_ws_length rest3) as Hws3.
    destruct (eat "}" (skip_ws rest3)) as [rest4|] eqn:He.
    { apply eat_length in He. split; [|congruence]. intros a r [= _ <-]. lia. }
    destruct (eat "," (skip_ws rest3)) as [rest4|] eqn:Hc.
    2: { split; [discriminate|congruence]. }
    apply eat_length in Hc.
    destruct (IHm rest4) as [Hlen' Hfuel'].
    destruct (parse_members n rest4) as [ms rest5| |] eqn:Hp'.
    + split; [|congruence]. intros a r [= _ <-]. specialize (Hlen' ms rest5 eq_refl). lia.
    + split; [discriminate|congruence].
    + split; [discriminate|]. intros Hn. exfalso. apply Hfuel'; [lia|reflexivity].
Qed.

(** [JSON.parse] either returns a value or throws: the fuel it is
    given is always enough. *)
Lemma parse_text_total (s : string) : parse_text s <> OutOfFuel.
Proof.
  unfold parse_text, fuel_for.
  destruct (parse_fuel (2 * String.length s + 1)) as [Hv _].
  destruct (Hv s) as [_ Hfuel].
  destruct (parse_value (2 * String.length s + 1) s) as [v rest| |] eqn:Hp.
  - destruct (skip_ws rest); discriminate.
  - discriminate.
  - exfalso. apply Hfuel; [lia|reflexivity].
Qed.

Lemma parse_None (s : string) : parse s = None <-> parse_text s = SyntaxError.
Proof.
  unfold parse. pose proof (parse_text_total s).
  destruct (parse_text s); split; congruence.
Qed.

End ParserFuel.

(** *** Finding a record and changing it in place *)

Section Store.
Import TodoManager.

Lemma has_id_true (i : string) (t : Todo) : has_id i t = true <-> id t = i.
Proof. unfold has_id. apply String.eqb_eq. Qed.

Lemma has_id_false (i : string) (t : Todo) : has_id i t = false <-> id t <> i.
Proof. unfold has_id. apply String.eqb_neq. Qed.

Lemma find_None (i : string) (l : list Todo) :
  find (has_id i) l = None <-> ~ In i (List.map id l).
Proof.
  unfold find. induction l as [|t l IH]; simpl; [tauto|].
  destruct (has_id i t) eqn:Ht.
  - apply has_id_true in Ht. split; [discriminate|]. intros H. exfalso. apply H. by left.
  - apply has_id_false in Ht. rewrite IH. tauto.
Qed.

(** The record [find] returns is the first one with the id. *)
Lemma find_Some (i : string) (l : list Todo) :
  In i (List.map id l) ->
  exists before todo after,
    l = before ++ todo :: after /\ ~ In i (List.map id before) /\ id todo = i /\
    find (has_id i) l = Some todo.
Proof.
  unfold find. induction l as [|t l IH]; simpl; [tauto|].
  intros Hin. destruct (has_id i t) eqn:Ht.
  - apply has_id_true in Ht. exists [], t, l. simpl. tauto.
  - apply has_id_false in Ht. destruct Hin as [Hin|Hin]; [congruence|].
    destruct (IH Hin) as (before & todo & after & -> & Hb & Hid & Hf).
    exists (t :: before), todo, after. simpl. repeat split; auto.
    intros [?|?]; [congruence|tauto].
Qed.

Lemma mutate_found_first (i : string) (f : Todo -> Todo) (before after : list Todo) (todo : Todo) :
  ~ In i (List.map id before) -> id todo = i ->
  mutate_found (has_id i) f (before ++ todo :: after) = before ++ f todo :: after.
Proof.
  intros Hb Hid. induction before as [|t before IH]; simpl.
  - apply has_id_true in Hid. by rewrite Hid.
  - simpl in Hb. assert (Ht : has_id i t = false) by (apply has_id_false; tauto).
    rewrite Ht, IH; [done|tauto].
Qed.

Lemma mutate_found_map {A : Type} (g : Todo -> A) (p : Todo -> bool) (f : Todo -> Todo)
    (l : list Todo) :
  (forall t, g (f t) = g t) -> List.map g (mutate_found p f l) = List.map g l.
Proof.
  intros Hg. induction l as [|t l IH]; simpl; [done|].
  destruct (p t); simpl; [by rewrite Hg | by rewrite IH].
Qed.

Lemma set_completed_twice (t : Todo) :
  set_completed (negb (completed (set_completed (negb (completed t)) t)))
    (set_completed (negb (completed t)) t) = t.
Proof. destruct t as [i k d c s]. unfold set_completed. simpl. by rewrite negb_involutive. Qed.

Lemma filter_id_absent (i : string) (l : list Todo) :
  ~ In i (List.map id l) ->
  List.filter (fun todo => negb (String.eqb (id todo) i)) l = l.
Proof.
  induction l as [|t l IH]; simpl; [done|]. intros H.
  assert (Ht : String.eqb (id t) i = false) by (apply String.eqb_neq; tauto).
  rewrite Ht. simpl. rewrite IH; [done|tauto].
Qed.

Lemma filter_id_gone (i : string) (l : list Todo) :
  ~ In i (List.map id (List.filter (fun todo => negb (String.eqb (id todo) i)) l)).
Proof.
  rewrite List.in_map_iff. intros (t & Hid & Hin).
  apply List.filter_In in Hin as [_ Hne].
  apply negb_true_iff, String.eqb_neq in Hne. congruence.
Qed.

Lemma filter_sublist {A : Type} (p : A -> bool) (l : list A) :
  sublist (List.filter p l) l.
Proof.
  induction l as [|a l IH]; simpl; [constructor|].
  destruct (p a); by constructor.
Qed.

Lemma NoDup_map_sublist {A B : Type} (g : A -> B) (l k : list A) :
  sublist l k -> List.NoDup (List.map g k) -> List.NoDup (List.map g l).
Proof.
  intros Hs. induction Hs as [|a l k Hs IH|a l k Hs IH]; simpl; intros Hk.
  - constructor.
  - apply List.NoDup_cons_iff in Hk as [Ha Hk]. apply List.NoDup_cons_iff. split; [|auto].
    rewrite List.in_map_iff in *. intros (x & Hx & Hin). apply Ha. exists x. split; [done|].
    apply list_elem_of_In. eapply elem_of_sublist; [|exact Hs]. by apply list_elem_of_In.
  - apply List.NoDup_cons_iff in Hk as [_ Hk]. auto.
Qed.

Lemma saveToLocalStorage_persisted (st : state) : persisted (saveToLocalStorage st).
Proof.
  unfold persisted, saveToLocalStorage, LocalStorage.getItem, LocalStorage.setItem. simpl.
  apply lookup_insert_eq.
Qed.

End Store.

(** *** The store *)

Section StoreClaims.
Import TodoManager.

(** C1, as the script behaves (the claim's malformed case fails): when
    the key is absent the constructed store holds the empty collection;
    when the stored text is not JSON, [JSON.parse] throws a SyntaxError
    that the constructor does not catch, and these are the only texts
    on which construction fails. *)
Theorem C1_constructor_load (ls : LocalStorage.t) :
  (LocalStorage.getItem "todos" ls = None ->
     constructor ls = Constructed {| todos := []; localStorage := ls |}) /\
  (forall text,
     LocalStorage.getItem "todos" ls = Some text ->
     (JSON.parse_text text = JSON.SyntaxError <-> constructor ls = ThrowsSyntaxError)).
Proof.
  unfold constructor, parse_stored. split.
  - intros ->. reflexivity.
  - intros text ->. rewrite <- parse_None.
    destruct (JSON.parse text) as [v|]; [|tauto].
    split; [discriminate|].
    destruct (todos_of_json _); discriminate.
Qed.

(** C1, the claim as stated fails: the stored text [{] is malformed
    JSON and the constructor throws instead of yielding the empty
    collection. *)
Lemma C1_malformed_json_throws :
  LocalStorage.getItem "todos" Scenario.malformed_storage = Some "{" /\
  JSON.parse_text "{" = JSON.SyntaxError /\
  constructor Scenario.malformed_storage = ThrowsSyntaxError /\
  constructor Scenario.malformed_storage <>
    Constructed {| todos := []; localStorage := Scenario.malformed_storage |}.
Proof. repeat split; try (vm_compute; reflexivity). vm_compute. discriminate. Qed.

(** C2, as the script behaves (no uniqueness check is made): the id of
    an added record is the concatenation of the two random fragments;
    over a collection with distinct ids, [addTodo] keeps the ids
    distinct exactly when the generated id is not already there, and
    [editTodo], [deleteTodo], [toggleTodoStatus] and [clearAllTodos]
    always keep them distinct. *)
Theorem C2_ids_distinct (st : state) (Hst : List.NoDup (ids st)) :
  (forall r1 r2 task dueDate,
     id (snd (addTodo r1 r2 task dueDate st)) = getRandomId r1 r2 /\
     ids (fst (addTodo r1 r2 task dueDate st)) = ids st ++ [getRandomId r1 r2] /\
     (List.NoDup (ids (fst (addTodo r1 r2 task dueDate st))) <->
      ~ In (getRandomId r1 r2) (ids st))) /\
  (forall i updatedTask, List.NoDup (ids (fst (editTodo i updatedTask st)))) /\
  (forall i, List.NoDup (ids (deleteTodo i st))) /\
  (forall i, List.NoDup (ids (toggleTodoStatus i st))) /\
  List.NoDup (ids (clearAllTodos st)).
Proof.
  repeat split.
  - unfold ids. simpl. by rewrite List.map_app.
  - unfold ids in *. simpl. rewrite List.map_app. simpl. intros H.
    apply List.NoDup_remove_2 in H. by rewrite List.app_nil_r in H.
  - unfold ids in *. simpl. rewrite List.map_app. simpl. intros H.
    apply Permutation_NoDup with (l := getRandomId r1 r2 :: List.map id (todos st)).
    + apply Permutation_cons_append.
    + by constructor.
  - intros i updatedTask. unfold editTodo, ids in *.
    destruct (find (has_id i) (todos st)); simpl; [|done].
    by rewrite mutate_found_map.
  - intros i. unfold deleteTodo, ids in *. simpl.
    eapply NoDup_map_sublist; [apply filter_sublist|done].
  - intros i. unfold toggleTodoStatus, ids in *.
    destruct (find (has_id i) (todos st)); simpl; [|done].
    by rewrite mutate_found_map.
  - unfold clearAllTodos, ids in *.
    destruct (0 <? length (todos st))%nat; simpl; [constructor|done].
Qed.

(** C2, the claim as stated fails: from the empty store, two calls of
    [addTodo] during which [Math.random()] returns 0.5 each time give
    both records the id [ii]: the second call generates an id the
    collection already holds, and the state reached has two records with
    one id. *)
Lemma C2_ids_collide :
  reachable Scenario.first_added /\
  In (id (snd (addTodo "0.i" "0.i" "second" None Scenario.first_added)))
     (ids Scenario.first_added) /\
  reachable Scenario.collided /\
  ids Scenario.collided = ["ii"; "ii"] /\
  ~ List.NoDup (ids Scenario.collided).
Proof.
  assert (Hfirst : reachable Scenario.first_added).
  { apply reach_addTodo. by apply reach_new. }
  split; [exact Hfirst|]. split; [|split; [|split]].
  - vm_compute. by left.
  - by apply reach_addTodo.
  - vm_compute. reflexivity.
  - intros H. apply List.NoDup_cons_iff in H as [H _]. apply H. vm_compute. by left.
Qed.

(** C3, as the script behaves: the record stored for the task text
    "This is a very long task description" has the task field
    "This is a very...", the first 14 characters "This is a very" and
    the marker "...", and it is the last record of the collection. *)
Theorem C3_long_task_truncated (r1 r2 : string) (dueDate : option string) (st : state) :
  JS.slice 0 14 "This is a very long task description" = "This is a very" /\
  task (snd (addTodo r1 r2 "This is a very long task description" dueDate st))
    = "This is a very..." /\
  todos (fst (addTodo r1 r2 "This is a very long task description" dueDate st))
    = todos st ++ [snd (addTodo r1 r2 "This is a very long task description" dueDate st)].
Proof. repeat split. Qed.

(** C3, the claim as stated fails: the stored task field is not
    "This is a ver...", which keeps only 13 characters of the input. *)
Lemma C3_not_thirteen_characters :
  task (snd (addTodo "0.i" "0.abc" "This is a very long task description" None
               Scenario.store1))
    <> "This is a ver..." /\
  JS.length "This is a ver" = 13.
Proof. split; [vm_compute; discriminate | reflexivity]. Qed.

(** C4: [filterTodos("all")] is the collection itself, in order;
    ["pending"] and ["completed"] select, in order, the records whose
    [completed] is false and true; every record is in exactly one of the
    two; any other criterion gives the empty array. *)
Theorem C4_filterTodos (st : state) :
  filterTodos "all" st = todos st /\
  (forall t, In t (filterTodos "pending" st) <-> In t (todos st) /\ completed t = false) /\
  (forall t, In t (filterTodos "completed" st) <-> In t (todos st) /\ completed t = true) /\
  sublist (filterTodos "pending" st) (todos st) /\
  sublist (filterTodos "completed" st) (todos st) /\
  Permutation (filterTodos "pending" st ++ filterTodos "completed" st) (filterTodos "all" st) /\
  (forall t, ~ (In t (filterTodos "pending" st) /\ In t (filterTodos "completed" st))) /\
  (forall status,
     status <> "all" -> status <> "pending" -> status <> "completed" ->
     filterTodos status st = []).
Proof.
  unfold filterTodos. simpl.
  assert (Hp : forall t, In t (List.filter (fun todo => negb (completed todo)) (todos st))
                         <-> In t (todos st) /\ completed t = false).
  { intros t. rewrite List.filter_In, negb_true_iff. tauto. }
  assert (Hc : forall t, In t (List.filter (fun todo => completed todo) (todos st))
                         <-> In t (todos st) /\ completed t = true).
  { intros t. rewrite List.filter_In. tauto. }
  split; [reflexivity|]. split; [exact Hp|]. split; [exact Hc|].
  split; [apply filter_sublist|]. split; [apply filter_sublist|].
  split; [|split].
  - clear Hp Hc. induction (todos st) as [|t l IH]; simpl; [constructor|].
    destruct (completed t); simpl.
    + symmetry. apply Permutation_cons_app. by symmetry.
    + by constructor.
  - intros t [H1 H2]. apply Hp in H1 as [_ H1]. apply Hc in H2 as [_ H2]. congruence.
  - intros status Ha Hpe Hco.
    apply String.eqb_neq in Ha, Hpe, Hco. by rewrite Ha, Hpe, Hco.
Qed.

(** C5: when a record has the id, [editTodo] overwrites the task field
    of the first such record with the replacement text as given, writes
    the collection to the key-value store and returns the record; when
    none has it, [editTodo] returns [undefined] and changes nothing, the
    key-value store included. *)
Theorem C5_editTodo (st : state) (i updatedTask : string) :
  (In i (ids st) ->
     exists before todo after,
       todos st = before ++ todo :: after /\
       ~ In i (List.map id before) /\ id todo = i /\
       todos (fst (editTodo i updatedTask st))
         = before ++ set_task updatedTask todo :: after /\
       snd (editTodo i updatedTask st) = Some (set_task updatedTask todo) /\
       task (set_task updatedTask todo) = updatedTask /\
       persisted (fst (editTodo i updatedTask st)) /\
       writes_since st (fst (editTodo i updatedTask st))
         [("todos", stringify_todos (before ++ set_task updatedTask todo :: after))]) /\
  (~ In i (ids st) -> editTodo i updatedTask st = (st, None)).
Proof.
  unfold ids, editTodo. split.
  - intros Hin. destruct (find_Some i (todos st) Hin) as (before & todo & after & Hl & Hb & Hid & Hf).
    assert (Hm : mutate_found (has_id i) (set_task updatedTask) (todos st)
                 = before ++ set_task updatedTask todo :: after).
    { rewrite Hl. by apply mutate_found_first. }
    exists before, todo, after. rewrite Hf. simpl. rewrite Hm.
    repeat split; auto.
    apply (saveToLocalStorage_persisted (set_todos _ st)).
  - intros Hout. apply find_None in Hout. by rewrite Hout.
Qed.

(** C6: when a record has the id, [toggleTodoStatus] negates the
    [completed] field of the first such record, and a second call
    restores the collection; when none has it, [toggleTodoStatus]
    changes nothing, the key-value store included. *)
Theorem C6_toggle_involution (st : state) (i : string) :
  (In i (ids st) ->
     exists before todo after,
       todos st = before ++ todo :: after /\
       ~ In i (List.map id before) /\ id todo = i /\
       todos (toggleTodoStatus i st)
         = before ++ set_completed (negb (completed todo)) todo :: after /\
       todos (toggleTodoStatus i (toggleTodoStatus i st)) = todos st /\
       option_map completed (find (has_id i) (todos (toggleTodoStatus i (toggleTodoStatus i st))))
         = Some (completed todo)) /\
  (~ In i (ids st) -> toggleTodoStatus i st = st).
Proof.
  unfold ids. split.
  - intros Hin. destruct (find_Some i (todos st) Hin) as (before & todo & after & Hl & Hb & Hid & Hf).
    exists before, todo, after.
    assert (H1 : todos (toggleTodoStatus i st)
                 = before ++ set_completed (negb (completed todo)) todo :: after).
    { unfold toggleTodoStatus. rewrite Hf. simpl. rewrite Hl.
      by rewrite mutate_found_first. }
    assert (H2 : todos (toggleTodoStatus i (toggleTodoStatus i st)) = todos st).
    { unfold toggleTodoStatus at 1.
      destruct (find_Some i (todos (toggleTodoStatus i st))) as (b' & t' & a' & _ & _ & _ & Hf').
      { rewrite H1, List.map_app. apply List.in_or_app. right. simpl. by left. }
      rewrite Hf'. simpl. rewrite H1.
      rewrite (mutate_found_first i _ before after) by done.
      by rewrite set_completed_twice, Hl. }
    repeat split; auto. by rewrite H2, Hf.
  - intros Hout. apply find_None in Hout. unfold toggleTodoStatus. by rewrite Hout.
Qed.

(** In a reachable state every record has the status given by [addTodo]. *)
Lemma reachable_status (st : state) :
  reachable st -> forall t, In t (todos st) -> status t = "pending".
Proof.
  induction 1 as [ls Hls|r1 r2 k d st Hr IH|i k st Hr IH|i st Hr IH|i st Hr IH|st Hr IH];
    intros t; simpl.
  - tauto.
  - rewrite List.in_app_iff. simpl. intros [H|[<-|[]]]; auto.
  - intros Hin.
    assert (Hs : In (status t) (List.map status (todos (fst (editTodo i k st)))))
      by (apply List.in_map_iff; eauto).
    unfold editTodo in Hs. destruct (find (has_id i) (todos st)); simpl in Hs.
    + rewrite mutate_found_map in Hs by done.
      apply List.in_map_iff in Hs as (t' & <- & Hin'). auto.
    + apply List.in_map_iff in Hs as (t' & <- & Hin'). auto.
  - intros Hin. apply List.filter_In in Hin as [Hin _]. auto.
  - intros Hin.
    assert (Hs : In (status t) (List.map status (todos (toggleTodoStatus i st))))
      by (apply List.in_map_iff; eauto).
    unfold toggleTodoStatus in Hs. destruct (find (has_id i) (todos st)); simpl in Hs.
    + rewrite mutate_found_map in Hs by done.
      apply List.in_map_iff in Hs as (t' & <- & Hin'). auto.
    + apply List.in_map_iff in Hs as (t' & <- & Hin'). auto.
  - unfold clearAllTodos. destruct (0 <? length (todos st))%nat; simpl; [tauto|auto].
Qed.

(** C7: in every reachable state each record has the status ["pending"]
    that [addTodo] gave it; [toggleTodoStatus] and [editTodo] leave the
    status of every record as it was, [deleteTodo] keeps the surviving
    records as they were, [addTodo] keeps the earlier records as they
    were; and [toggleTodoStatus] changes, in the first record with the
    id, the [completed] field only. *)
Theorem C7_status_frame (st : state) :
  (reachable st -> forall t, In t (todos st) -> status t = "pending") /\
  (forall r1 r2 task dueDate,
     status (snd (addTodo r1 r2 task dueDate st)) = "pending" /\
     todos (fst (addTodo r1 r2 task dueDate st))
       = todos st ++ [snd (addTodo r1 r2 task dueDate st)]) /\
  (forall i, List.map status (todos (toggleTodoStatus i st)) = List.map status (todos st)) /\
  (forall i updatedTask,
     List.map status (todos (fst (editTodo i updatedTask st))) = List.map status (todos st)) /\
  (forall i, sublist (todos (deleteTodo i st)) (todos st)) /\
  (forall i,
     In i (ids st) ->
     exists before todo todo' after,
       todos st = before ++ todo :: after /\
       ~ In i (List.map id before) /\ id todo = i /\
       todos (toggleTodoStatus i st) = before ++ todo' :: after /\
       completed todo' = negb (completed todo) /\
       id todo' = id todo /\ task todo' = task todo /\
       dueDate todo' = dueDate todo /\ status todo' = status todo) /\
  (forall i, ~ In i (ids st) -> todos (toggleTodoStatus i st) = todos st).
Proof.
  split; [apply reachable_status|].
  split; [by intros|].
  split.
  { intros i. unfold toggleTodoStatus.
    destruct (find (has_id i) (todos st)); simpl; [|done]. by rewrite mutate_found_map. }
  split.
  { intros i k. unfold editTodo.
    destruct (find (has_id i) (todos st)); simpl; [|done]. by rewrite mutate_found_map. }
  split; [intros i; apply filter_sublist|].
  split.
  - intros i Hin.
    destruct (find_Some i (todos st) Hin) as (before & todo & after & Hl & Hb & Hid & Hf).
    exists before, todo, (set_completed (negb (completed todo)) todo), after.
    repeat split; auto.
    unfold toggleTodoStatus. rewrite Hf. simpl. rewrite Hl.
    by rewrite mutate_found_first.
  - intros i Hout. apply find_None in Hout. unfold toggleTodoStatus. by rewrite Hout.
Qed.

(** C8: [deleteTodo] keeps, in order, exactly the records whose id
    differs from the given one, so it keeps the whole collection when no
    record has the id; it writes the resulting collection to the
    key-value store in both cases; and a second [deleteTodo] of the same
    id leaves the collection and the stored text as the first left
    them. *)
Theorem C8_deleteTodo (st : state) (i : string) :
  (forall t, In t (todos (deleteTodo i st)) <-> In t (todos st) /\ id t <> i) /\
  sublist (todos (deleteTodo i st)) (todos st) /\
  ~ In i (ids (deleteTodo i st)) /\
  (~ In i (ids st) -> todos (deleteTodo i st) = todos st) /\
  persisted (deleteTodo i st) /\
  writes_since st (deleteTodo i st) [("todos", stringify_todos (todos (deleteTodo i st)))] /\
  todos (deleteTodo i (deleteTodo i st)) = todos (deleteTodo i st) /\
  LocalStorage.getItem "todos" (localStorage (deleteTodo i (deleteTodo i st)))
    = LocalStorage.getItem "todos" (localStorage (deleteTodo i st)).
Proof.
  assert (Hgone : ~ In i (ids (deleteTodo i st))) by apply filter_id_gone.
  assert (Htwice : todos (deleteTodo i (deleteTodo i st)) = todos (deleteTodo i st)).
  { unfold deleteTodo at 1. simpl. apply filter_id_absent. exact Hgone. }
  repeat split; auto.
  - by apply List.filter_In in H as [? _].
  - apply List.filter_In in H as [_ H]. by apply negb_true_iff, String.eqb_neq in H.
  - intros [Hin Hne]. apply List.filter_In. split; [done|].
    by apply negb_true_iff, String.eqb_neq.
  - apply filter_sublist.
  - intros Hout. by apply filter_id_absent.
  - apply (saveToLocalStorage_persisted (set_todos _ st)).
  - pose proof (saveToLocalStorage_persisted
                  (set_todos (List.filter (fun todo => negb (String.eqb (id todo) i))
                                          (todos (deleteTodo i st))) (deleteTodo i st))) as H2.
    pose proof (saveToLocalStorage_persisted
                  (set_todos (List.filter (fun todo => negb (String.eqb (id todo) i))
                                          (todos st)) st)) as H1.
    unfold persisted in H1, H2. fold (deleteTodo i (deleteTodo i st)) in H2.
    fold (deleteTodo i st) in H1. rewrite H1, H2. by rewrite Htwice.
Qed.

End StoreClaims.

(** *** The formatter *)

Section Formatter.
Import TodoItemFormatter.

Lemma substring_prefix (a b : string) :
  String.substring 0 (String.length a) (a ++ b)%string = a.
Proof. induction a as [|c a IH]; simpl; [by destruct b | by rewrite IH]. Qed.

Lemma substring_length_le (n : nat) (s : string) :
  n <= String.length s -> String.length (String.substring 0 n s) = n.
Proof.
  revert s. induction n as [|n IH]; intros s H.
  - by destruct s.
  - destruct s as [|c s]; simpl in *; [lia|]. rewrite IH; lia.
Qed.

Lemma string_length_app (a b : string) :
  String.length (a ++ b)%string = String.length a + String.length b.
Proof. induction a as [|c a IH]; simpl; [done | by rewrite IH]. Qed.

(** A truncated text is its first 14 characters and the marker. *)
Lemma formatTask_long (x : string) :
  14 < String.length x ->
  formatTask x = (String.substring 0 14 x ++ "...")%string /\
  String.length (formatTask x) = 17.
Proof.
  intros H. unfold formatTask, JS.length, JS.slice.
  apply Nat.ltb_lt in H as H'. rewrite H'. split; [done|].
  rewrite string_length_app, substring_length_le by lia. reflexivity.
Qed.

Lemma formatTask_short (x : string) : String.length x <= 14 -> formatTask x = x.
Proof.
  intros H. unfold formatTask, JS.length.
  apply Nat.ltb_ge in H. by rewrite H.
Qed.

Lemma formatTask_idempotent (x : string) : formatTask (formatTask x) = formatTask x.
Proof.
  destruct (Nat.le_gt_cases (String.length x) 14) as [Hle|Hgt].
  - rewrite (formatTask_short x Hle). exact (formatTask_short x Hle).
  - destruct (formatTask_long x Hgt) as [Hx Hlen].
    destruct (formatTask_long (formatTask x)) as [Hxx _]; [lia|].
    rewrite Hxx. rewrite Hx at 1.
    assert (H14 : String.length (String.substring 0 14 x) = 14)
      by (apply substring_length_le; lia).
    rewrite <- H14 at 1. rewrite substring_prefix. by rewrite Hx.
Qed.

End Formatter.

(** *** The page *)

Section Page.
Import TodoManager UIManager.

Lemma classList_shown (l : list string) :
  In "show" (JS.classList_add "show" (JS.classList_remove "hide" l)) /\
  ~ In "hide" (JS.classList_add "show" (JS.classList_remove "hide" l)).
Proof.
  unfold JS.classList_add, JS.classList_remove.
  set (l' := List.filter _ l).
  assert (Hh : ~ In "hide" l').
  { subst l'. intros H. apply List.filter_In in H as [_ H]. discriminate. }
  destruct (existsb (String.eqb "show") l') eqn:He.
  - split; [|done]. apply List.existsb_exists in He as (x & Hx & Heq).
    apply String.eqb_eq in Heq. by subst.
  - split.
    + apply List.in_or_app. right. by left.
    + intros H. apply List.in_app_or in H as [H|[H|[]]]; [done|discriminate].
Qed.

Lemma handleUpdate_frame (ui : UIManager.state) :
  todoManager (handleUpdate ui) = todoManager ui /\
  taskInput_value (handleUpdate ui) = taskInput_value ui.
Proof.
  unfold handleUpdate, showAllTodos, displayTodos.
  destruct (filterTodos _ _); split; reflexivity.
Qed.

Lemma handleAddTodo_empty (r1 r2 : string) (ui : UIManager.state) :
  taskInput_value ui = "" ->
  handleAddTodo r1 r2 ui = showAlertMessage "Please enter a task" "error" ui.
Proof. unfold handleAddTodo. by intros ->. Qed.

(** With an empty task input, no listener of the add button touches
    the store. *)
Lemma run_listeners_empty (r1 r2 : string) (ls : list listener) (ui : UIManager.state) :
  taskInput_value ui = "" ->
  todoManager (List.fold_left (fun u l => run_listener r1 r2 l u) ls ui) = todoManager ui.
Proof.
  revert ui. induction ls as [|l ls IH]; intros ui Hempty; simpl; [done|].
  destruct l; simpl.
  - rewrite handleAddTodo_empty by done. by rewrite IH.
  - destruct (handleUpdate_frame ui) as [Hm Ht]. rewrite IH; [done|congruence].
Qed.

(** C9: with an empty task input [handleAddTodo] shows the error alert
    "Please enter a task" and leaves the store, collection and key-value
    store, as it was, and so does the whole click on the add button;
    with a task text it calls [addTodo] on the two input values and
    empties both inputs. *)
Theorem C9_handleAddTodo (r1 r2 : string) (ui : UIManager.state) :
  (taskInput_value ui = "" ->
     alertMessage (handleAddTodo r1 r2 ui)
       = Some {| alert_type := "error"; alert_message := "Please enter a task" |} /\
     In "show" (alertMessage_classList (handleAddTodo r1 r2 ui)) /\
     ~ In "hide" (alertMessage_classList (handleAddTodo r1 r2 ui)) /\
     todoManager (handleAddTodo r1 r2 ui) = todoManager ui /\
     todoManager (click_addBtn r1 r2 ui) = todoManager ui) /\
  (taskInput_value ui <> "" ->
     todoManager (handleAddTodo r1 r2 ui)
       = fst (addTodo r1 r2 (taskInput_value ui) (Some (dateInput_value ui)) (todoManager ui)) /\
     taskInput_value (handleAddTodo r1 r2 ui) = "" /\
     dateInput_value (handleAddTodo r1 r2 ui) = "").
Proof.
  split.
  - intros Hempty. rewrite handleAddTodo_empty by done.
    destruct (classList_shown (alertMessage_classList ui)) as [Hs Hh].
    repeat split; auto. by apply run_listeners_empty.
  - intros Hne. unfold handleAddTodo. apply String.eqb_neq in Hne. rewrite Hne.
    simpl. unfold showAllTodos, displayTodos. simpl.
    destruct (todos (todoManager ui) ++ _); repeat split.
Qed.

Lemma formatted_addTodo r1 r2 k d m : formatted m -> formatted (fst (addTodo r1 r2 k d m)).
Proof.
  unfold formatted. simpl. rewrite List.map_app. intros H.
  apply Forall_app. split; [done|]. constructor; [|constructor].
  apply formatTask_idempotent.
Qed.

Lemma formatted_deleteTodo i m : formatted m -> formatted (deleteTodo i m).
Proof.
  unfold formatted. simpl. intros H.
  induction (todos m) as [|t l IH]; simpl; [constructor|].
  apply Forall_cons in H as [Ht Hl].
  destruct (negb (String.eqb (id t) i)); simpl; [constructor|]; auto.
Qed.

Lemma formatted_toggleTodoStatus i m : formatted m -> formatted (toggleTodoStatus i m).
Proof.
  unfold formatted, toggleTodoStatus.
  destruct (find (has_id i) (todos m)); simpl; [|done].
  by rewrite mutate_found_map.
Qed.

Lemma formatted_clearAllTodos m : formatted m -> formatted (clearAllTodos m).
Proof.
  unfold formatted, clearAllTodos.
  destruct (0 <? length (todos m))%nat; simpl; [constructor|done].
Qed.

Lemma displayTodos_todoManager l ui : todoManager (displayTodos l ui) = todoManager ui.
Proof. by destruct l. Qed.

Lemma formatted_handleAddTodo r1 r2 ui :
  formatted (todoManager ui) -> formatted (todoManager (handleAddTodo r1 r2 ui)).
Proof.
  intros H. unfold handleAddTodo.
  destruct (String.eqb (taskInput_value ui) ""); [done|].
  simpl. unfold showAllTodos. rewrite displayTodos_todoManager. simpl.
  by apply (formatted_addTodo r1 r2 (taskInput_value ui) (Some (dateInput_value ui))).
Qed.

Lemma formatted_step (e : event) (ui : UIManager.state) :
  formatted (todoManager ui) -> formatted (todoManager (step e ui)).
Proof.
  intros H. destruct e; simpl; try done.
  - (* click on the add button *)
    unfold click_addBtn. generalize (addBtn_click ui). intros ls.
    revert ui H. induction ls as [|l ls IH]; intros ui H; simpl; [done|].
    apply IH. destruct l; unfold run_listener.
    + by apply formatted_handleAddTodo.
    + by rewrite (proj1 (handleUpdate_frame ui)).
  - unfold keyup_taskInput. destruct (_ && _); [|done]. by apply formatted_handleAddTodo.
  - unfold handleClearAllTodos, showAlertMessage, showAllTodos. simpl.
    rewrite displayTodos_todoManager. simpl. by apply formatted_clearAllTodos.
  - unfold handleFilterTodos. by rewrite displayTodos_todoManager.
  - unfold handleEditTodo. destruct (find _ _); [|done]. simpl.
    by apply formatted_deleteTodo.
  - unfold handleToggleStatus, showAllTodos. rewrite displayTodos_todoManager. simpl.
    by apply formatted_toggleTodoStatus.
  - unfold handleDeleteTodo, showAllTodos. rewrite displayTodos_todoManager. simpl.
    by apply formatted_deleteTodo.
  - unfold run_timeout. by destruct (timeouts ui).
Qed.

Lemma formatted_run (es : list event) (ui : UIManager.state) :
  formatted (todoManager ui) -> formatted (todoManager (run es ui)).
Proof.
  unfold run. revert ui. induction es as [|e es IH]; intros ui H; simpl; [done|].
  apply IH. by apply formatted_step.
Qed.

(** C10: [formatTask] is idempotent on every string, a truncated text
    being its first 14 characters and the marker; so the task cell
    [displayTodos] writes for a record made by [addTodo] is the stored
    task text itself, and so it is for every record of the collection
    after any run of the page that starts with formatted task texts. *)
Theorem C10_formatTask_idempotent :
  (forall x,
     TodoItemFormatter.formatTask (TodoItemFormatter.formatTask x)
       = TodoItemFormatter.formatTask x) /\
  (forall x,
     14 < JS.length x ->
     TodoItemFormatter.formatTask x = (JS.slice 0 14 x ++ "...")%string /\
     JS.slice 0 14 (TodoItemFormatter.formatTask x) = JS.slice 0 14 x) /\
  (forall r1 r2 text dueDate m,
     task_cell (display_row (snd (addTodo r1 r2 text dueDate m)))
       = task (snd (addTodo r1 r2 text dueDate m))) /\
  (forall ui es todo,
     formatted (todoManager ui) ->
     In todo (todos (todoManager (run es ui))) ->
     task_cell (display_row todo) = task todo).
Proof.
  split; [exact formatTask_idempotent|]. split; [|split].
  - intros x Hx. destruct (formatTask_long x Hx) as [Hf _]. split; [exact Hf|].
    rewrite Hf. unfold JS.slice. simpl (14 - 0).
    assert (H14 : String.length (String.substring 0 14 x) = 14).
    { apply substring_length_le. unfold JS.length in Hx. lia. }
    rewrite <- H14 at 1. apply substring_prefix.
  - intros. simpl. apply formatTask_idempotent.
  - intros ui es todo Hui Hin. simpl.
    pose proof (formatted_run es ui Hui) as H.
    unfold formatted in H. rewrite List.Forall_forall in H. apply H.
    apply List.in_map_iff. eauto.
Qed.

End Page.

(** *** The properties on the sample states *)

Section Samples.
Import TodoManager UIManager.

(** An id is, or is not, among the ids of a sample state. *)
Ltac held := vm_compute; tauto.
Ltac not_held := vm_compute; intuition discriminate.

(** The two records of the sample store. *)
Example store2_todos :
  todos Scenario.store2 =
  [ mkTodo "4fzyo82mvyrk2j5x9" "Buy milk" "2024-01-01" false "pending";
    mkTodo "iabc" "This is a very..." "No due date" false "pending" ].
Proof. reflexivity. Qed.

(** Reloading the sample store from what it persisted gives back its
    collection. *)
Example store2_reloaded :
  TodoManager.constructor (localStorage Scenario.store2) =
  Constructed {| todos := todos Scenario.store2;
                 localStorage := localStorage Scenario.store2 |}.
Proof. vm_compute. reflexivity. Qed.

(** A stored text that is JSON but falsy also gives the empty collection. *)
Example stored_zero_is_empty :
  TodoManager.constructor (LocalStorage.of_items {[ "todos" := "0.0e3" ]}) =
  Constructed {| todos := [];
                 localStorage := LocalStorage.of_items {[ "todos" := "0.0e3" ]} |}.
Proof. vm_compute. reflexivity. Qed.

(** A stored text that is JSON but no array of records is kept as it is. *)
Example stored_number_is_kept :
  TodoManager.constructor (LocalStorage.of_items {[ "todos" := "7" ]}) =
  ConstructedWith (JSON.JNumber false 7 0) (LocalStorage.of_items {[ "todos" := "7" ]}).
Proof. vm_compute. reflexivity. Qed.

Example parse_samples :
  JSON.parse " [1, -2.50e-3, true, null, {}] " =
    Some (JSON.JArray [JSON.JNumber false 1 0; JSON.JNumber true 250 (-5);
                       JSON.JBool true; JSON.JNull; JSON.JObject []]) /\
  JSON.parse "[1,]" = None /\ JSON.parse "01" = None /\ JSON.parse "1." = None /\
  JSON.parse "" = None /\ JSON.parse "nul" = None /\ JSON.parse "[1] x" = None.
Proof. vm_compute. repeat split. Qed.

(** C1 at two key-value stores: an empty one, and one whose collection
    is the text [{]. *)
Lemma C1_constructor_load_witness :
  TodoManager.constructor Scenario.empty_storage = Constructed Scenario.store0 /\
  TodoManager.constructor Scenario.malformed_storage = ThrowsSyntaxError.
Proof.
  split.
  - apply (proj1 (C1_constructor_load Scenario.empty_storage)). reflexivity.
  - apply (proj2 (C1_constructor_load Scenario.malformed_storage) "{").
    + reflexivity.
    + vm_compute. reflexivity.
Defined.

(** C2 at the store holding "Buy milk": its one id is distinct, and
    adding a record whose generated id [iabc] is new keeps the ids
    distinct. *)
Lemma C2_ids_distinct_witness :
  List.NoDup (ids Scenario.store1) /\ List.NoDup (ids Scenario.store2).
Proof.
  assert (H1 : List.NoDup (ids Scenario.store1)).
  { vm_compute. constructor; [intros []|constructor]. }
  split; [exact H1|].
  destruct (C2_ids_distinct Scenario.store1 H1) as [Hadd _].
  destruct (Hadd "0.i" "0.abc" "This is a very long task description" None)
    as (_ & _ & Hiff).
  apply Hiff. not_held.
Defined.

(** C4 at the sample store and a criterion outside the three. *)
Lemma C4_filterTodos_witness : filterTodos "done" Scenario.store2 = [].
Proof.
  destruct (C4_filterTodos Scenario.store2) as (_ & _ & _ & _ & _ & _ & _ & Hother).
  apply Hother; discriminate.
Defined.

(** C5 at the sample store: an id it holds and an id it does not. *)
Lemma C5_editTodo_witness :
  (exists before todo after,
     todos Scenario.store2 = before ++ todo :: after /\
     snd (editTodo "iabc" "Call the plumber tomorrow" Scenario.store2)
       = Some (set_task "Call the plumber tomorrow" todo)) /\
  editTodo "nope" "Call the plumber tomorrow" Scenario.store2 = (Scenario.store2, None).
Proof.
  destruct (C5_editTodo Scenario.store2 "iabc" "Call the plumber tomorrow") as [Hfound _].
  destruct (C5_editTodo Scenario.store2 "nope" "Call the plumber tomorrow") as [_ Hmissing].
  split.
  - destruct Hfound as (before & todo & after & Hl & _ & _ & _ & Hret & _).
    { held. }
    exists before, todo, after. split; assumption.
  - apply Hmissing. not_held.
Defined.

(** C6 at the sample store: an id it holds and an id it does not. *)
Lemma C6_toggle_involution_witness :
  todos (toggleTodoStatus "iabc" (toggleTodoStatus "iabc" Scenario.store2))
    = todos Scenario.store2 /\
  toggleTodoStatus "nope" Scenario.store2 = Scenario.store2.
Proof.
  destruct (C6_toggle_involution Scenario.store2 "iabc") as [Hfound _].
  destruct (C6_toggle_involution Scenario.store2 "nope") as [_ Hmissing].
  split.
  - destruct Hfound as (before & todo & after & _ & _ & _ & _ & Htwice & _).
    { held. }
    exact Htwice.
  - apply Hmissing. not_held.
Defined.

Lemma store2_reachable : reachable Scenario.store2.
Proof.
  unfold Scenario.store2, Scenario.store1. do 2 apply reach_addTodo.
  apply reach_new. reflexivity.
Qed.

(** C7 at the sample store, which is reachable: the status of its
    second record, and the records around a toggled one. *)
Lemma C7_status_frame_witness :
  status (mkTodo "iabc" "This is a very..." "No due date" false "pending") = "pending" /\
  (exists before todo todo' after,
     todos Scenario.store2 = before ++ todo :: after /\
     todos (toggleTodoStatus "iabc" Scenario.store2) = before ++ todo' :: after /\
     status todo' = status todo) /\
  todos (toggleTodoStatus "nope" Scenario.store2) = todos Scenario.store2.
Proof.
  destruct (C7_status_frame Scenario.store2) as (Hreach & _ & _ & _ & _ & Hfound & Hmissing).
  split; [|split].
  - apply (Hreach store2_reachable). held.
  - destruct (Hfound "iabc") as (before & todo & todo' & after & Hl & _ & _ & Ht & _ & _ & _ & _ & Hs).
    { held. }
    exists before, todo, todo', after. repeat split; assumption.
  - apply Hmissing. not_held.
Defined.

(** C8 at the sample store and an id it does not hold. *)
Lemma C8_deleteTodo_witness :
  todos (deleteTodo "nope" Scenario.store2) = todos Scenario.store2.
Proof.
  destruct (C8_deleteTodo Scenario.store2 "nope") as (_ & _ & _ & Hmissing & _).
  apply Hmissing. not_held.
Defined.

(** C9 at the sample page: with the empty task input, and after the
    user typed a task. *)
Lemma C9_handleAddTodo_witness :
  todoManager (handleAddTodo "0.x" "0.y" Scenario.page) = todoManager Scenario.page /\
  taskInput_value (handleAddTodo "0.x" "0.y" (step (Type_task "Water the plants") Scenario.page))
    = "".
Proof.
  split.
  - destruct (C9_handleAddTodo "0.x" "0.y" Scenario.page) as [Hempty _].
    destruct Hempty as (_ & _ & _ & Hstore & _); [reflexivity|exact Hstore].
  - destruct (C9_handleAddTodo "0.x" "0.y" (step (Type_task "Water the plants") Scenario.page))
      as [_ Hfull].
    destruct Hfull as (_ & Htask & _); [vm_compute; discriminate|exact Htask].
Defined.

(** C10 at the long task text of the scenario, and at the page loaded
    over an empty key-value store after the user added that task. *)
Lemma C10_formatTask_idempotent_witness :
  TodoItemFormatter.formatTask "This is a very long task description"
    = (JS.slice 0 14 "This is a very long task description" ++ "...")%string /\
  task_cell (display_row (mkTodo "iabc" "This is a very..." "No due date" false "pending"))
    = "This is a very...".
Proof.
  destruct C10_formatTask_idempotent as (_ & Hlong & _ & Hrun).
  split.
  - destruct (Hlong "This is a very long task description") as [H _]; [|exact H].
    vm_compute. lia.
  - apply (Hrun (loaded Scenario.empty_storage "" "" "<i class='bx bx-plus bx-sm'></i>" ["hide"])
                [Type_task "This is a very long task description"; Click_addBtn "0.i" "0.abc"]).
    + constructor.
    + vm_compute. left. reflexivity.
Defined.

(** While a record is being edited the add button has a second
    listener: a click with an empty task input shows the error alert
    and then replaces it, and the edited record stays deleted. *)
Remark click_while_editing :
  let editing := step (Type_task "") (step (Click_edit "iabc") Scenario.page) in
  addBtn_click editing = [HandleAddTodo; HandleUpdate] /\
  alertMessage (handleAddTodo "0.x" "0.y" editing)
    = Some (mkAlert "error" "Please enter a task") /\
  alertMessage (click_addBtn "0.x" "0.y" editing)
    = Some (mkAlert "success" "Todo updated successfully") /\
  ids (todoManager (click_addBtn "0.x" "0.y" editing)) = ["4fzyo82mvyrk2j5x9"] /\
  addBtn_click (click_addBtn "0.x" "0.y" editing) = [HandleAddTodo].
Proof. vm_compute. repeat split. Qed.

End Samples.


(** *** What the store persists can be read back *)

Section Persistence.
Import JSON TodoManager.

Lemma append_assoc' (a b c : string) : ((a ++ b) ++ c = a ++ b ++ c)%string.
Proof.
  induction a as [|x a IH]; [reflexivity|].
  change (String x ((a ++ b) ++ c) = String x (a ++ b ++ c))%string.
  by rewrite IH.
Qed.

(** The parser reads back the escape sequence of every code unit. *)
Lemma lex_string_escape_char (c : ascii) (k : string) :
  lex_string (escape_char c ++ k) = cons_unit (N_of_ascii c) (lex_string k).
Proof. destruct c as [[] [] [] [] [] [] [] []]; reflexivity. Qed.

Lemma lex_string_quoted (s k : string) :
  lex_string (escape s ++ String JS.dquote k) = Some (units_of_string s, k).
Proof.
  induction s as [|c s IH]; [reflexivity|].
  change (escape (String c s)) with (escape_char c ++ escape s)%string.
  rewrite append_assoc', lex_string_escape_char, IH. reflexivity.
Qed.

Lemma string_of_units_of_string (s : string) :
  string_of_units (units_of_string s) = Some s.
Proof.
  unfold units_of_string. induction s as [|c s IH]; simpl; [reflexivity|].
  rewrite IH. simpl. pose proof (N_ascii_bounded c) as Hc.
  apply N.ltb_lt in Hc. rewrite Hc. by rewrite ascii_N_embedding.
Qed.

Lemma todos_of_json_to_json (l : list Todo) :
  todos_of_json (JArray (List.map to_json l)) = Some l.
Proof.
  simpl. induction l as [|t l IH]; simpl; [reflexivity|]. rewrite IH.
  unfold get_string. simpl. rewrite !string_of_units_of_string. by destruct t.
Qed.

(** The serialisation of a record is its text. *)
Lemma stringify_todo_text (t : Todo) (k : string) :
  (stringify_todo t ++ k)%string = todo_text t k.
Proof.
  unfold stringify_todo, stringify_member, stringify_string.
  rewrite !append_assoc'. reflexivity.
Qed.

Lemma stringify_todos_text (t : Todo) (l : list Todo) :
  stringify_todos (t :: l) = String "[" (elements_text t l "").
Proof.
  unfold stringify_todos.
  change ("[" ++ ?x)%string with (String "[" x). f_equal.
  revert t. induction l as [|t' l IH]; intros t.
  - simpl List.map. simpl String.concat. apply stringify_todo_text.
  - change (String.concat "," (List.map stringify_todo (t :: t' :: l)))
      with (stringify_todo t ++ "," ++ String.concat "," (List.map stringify_todo (t' :: l)))%string.
    rewrite !append_assoc', stringify_todo_text. simpl elements_text. f_equal.
    change ("," ++ ?x)%string with (String "," x). f_equal. apply IH.
Qed.

(** *** The parser on compact texts *)

Lemma parse_value_quoted (n : nat) (s k : string) :
  parse_value (S n) (quoted s k) = Parsed (JString (units_of_string s)) k.
Proof. unfold quoted. simpl. by rewrite lex_string_quoted. Qed.

Lemma parse_value_bool (n : nat) (b : bool) (k : string) :
  parse_value (S n) (stringify_bool b ++ k) = Parsed (JBool b) k.
Proof. by destruct b. Qed.

Lemma parse_members_eq (n : nat) (name k : string) :
  parse_members (S n) (quoted name (String ":" k)) =
  match parse_value n k with
  | Parsed v rest3 =>
      match eat "}" (skip_ws rest3), eat "," (skip_ws rest3) with
      | Some rest4, _ => Parsed [(units_of_string name, v)] rest4
      | None, Some rest4 =>
          match parse_members n rest4 with
          | Parsed ms rest5 => Parsed ((units_of_string name, v) :: ms) rest5
          | SyntaxError => SyntaxError
          | OutOfFuel => OutOfFuel
          end
      | None, None => SyntaxError
      end
  | SyntaxError => SyntaxError
  | OutOfFuel => OutOfFuel
  end.
Proof. unfold quoted. simpl. by rewrite lex_string_quoted. Qed.

Lemma parse_members_todo (n : nat) (t : Todo) (k : string) :
  exists body,
    todo_text t k = String "{" body /\
    eat "}" (skip_ws body) = None /\
    parse_members (6 + n) body =
    Parsed (match to_json t with JObject ms => ms | _ => [] end) k.
Proof.
  eexists. split; [reflexivity|]. split; [reflexivity|].
  change (6 + n) with (S (S (S (S (S (S n)))))).
  unfold string_member, bool_member.
  rewrite parse_members_eq, parse_value_quoted. simpl eat. cbv iota.
  rewrite parse_members_eq, parse_value_quoted. simpl eat. cbv iota.
  rewrite parse_members_eq, parse_value_quoted. simpl eat. cbv iota.
  rewrite parse_members_eq, parse_value_bool. simpl eat. cbv iota.
  rewrite parse_members_eq, parse_value_quoted. simpl eat. cbv iota.
  reflexivity.
Qed.

Lemma parse_value_object (n : nat) (body : string) :
  eat "}" (skip_ws body) = None ->
  parse_value (S n) (String "{" body) =
  match parse_members n body with
  | Parsed ms rest => Parsed (JObject ms) rest
  | SyntaxError => SyntaxError
  | OutOfFuel => OutOfFuel
  end.
Proof. intros H. change (skip_ws (String "{" body)) with (String "{" body) || idtac. simpl. by rewrite H. Qed.

Lemma parse_value_array (n : nat) (body : string) :
  eat "]" (skip_ws body) = None ->
  parse_value (S n) (String "[" body) =
  match parse_elements n body with
  | Parsed vs rest => Parsed (JArray vs) rest
  | SyntaxError => SyntaxError
  | OutOfFuel => OutOfFuel
  end.
Proof. intros H. simpl. by rewrite H. Qed.

Lemma parse_value_todo (n : nat) (t : Todo) (k : string) :
  parse_value (7 + n) (todo_text t k) = Parsed (to_json t) k.
Proof.
  destruct (parse_members_todo n t k) as (body & -> & Hclose & Hms).
  change (7 + n) with (S (6 + n)).
  rewrite (parse_value_object _ _ Hclose), Hms. reflexivity.
Qed.

Lemma parse_elements_eq (n : nat) (s : string) :
  parse_elements (S n) s =
  match parse_value n s with
  | Parsed v rest =>
      match eat "]" (skip_ws rest), eat "," (skip_ws rest) with
      | Some rest', _ => Parsed [v] rest'
      | None, Some rest' =>
          match parse_elements n rest' with
          | Parsed vs rest'' => Parsed (v :: vs) rest''
          | SyntaxError => SyntaxError
          | OutOfFuel => OutOfFuel
          end
      | None, None => SyntaxError
      end
  | SyntaxError => SyntaxError
  | OutOfFuel => OutOfFuel
  end.
Proof. reflexivity. Qed.

Lemma parse_elements_todos (l : list Todo) :
  forall n t k,
    parse_elements (8 + List.length l + n) (elements_text t l k)
    = Parsed (List.map to_json (t :: l)) k.
Proof.
  induction l as [|t' l IH]; intros n t k.
  - change (8 + List.length [] + n) with (S (7 + n)).
    rewrite parse_elements_eq. simpl elements_text. rewrite parse_value_todo. reflexivity.
  - change (8 + List.length (t' :: l) + n) with (S (7 + S (List.length l + n))).
    rewrite parse_elements_eq. simpl elements_text. rewrite parse_value_todo.
    simpl eat. cbv iota.
    replace (7 + S (List.length l + n)) with (8 + List.length l + n) by lia.
    rewrite IH. reflexivity.
Qed.

Lemma quoted_length (s k : string) :
  String.length k + 2 <= String.length (quoted s k).
Proof.
  unfold quoted.
  change (String.length (String JS.dquote ?x)) with (S (String.length x)).
  rewrite string_length_app.
  change (String.length (String JS.dquote k)) with (S (String.length k)). lia.
Qed.

Lemma string_member_length (name s k : string) :
  String.length k + 5 <= String.length (string_member name s k).
Proof.
  unfold string_member.
  pose proof (quoted_length name (String ":" (quoted s k))) as H1.
  pose proof (quoted_length s k) as H2.
  change (String.length (String ":" (quoted s k)))
    with (S (String.length (quoted s k))) in H1. lia.
Qed.

Lemma bool_member_length (name : string) (b : bool) (k : string) :
  String.length k + 3 <= String.length (bool_member name b k).
Proof.
  unfold bool_member.
  pose proof (quoted_length name (String ":" (stringify_bool b ++ k))) as H1.
  change (String.length (String ":" (stringify_bool b ++ k)))
    with (S (String.length (stringify_bool b ++ k))) in H1.
  rewrite string_length_app in H1. lia.
Qed.

Lemma todo_text_length (t : Todo) (k : string) :
  String.length k + 8 <= String.length (todo_text t k).
Proof.
  unfold todo_text. cbv zeta.
  set (m5 := string_member "status" (status t) (String "}" k)).
  set (m4 := bool_member "completed" (completed t) (String "," m5)).
  set (m3 := string_member "dueDate" (dueDate t) (String "," m4)).
  set (m2 := string_member "task" (task t) (String "," m3)).
  pose proof (string_member_length "status" (status t) (String "}" k)) as H5.
  pose proof (bool_member_length "completed" (completed t) (String "," m5)) as H4.
  pose proof (string_member_length "dueDate" (dueDate t) (String "," m4)) as H3.
  pose proof (string_member_length "task" (task t) (String "," m3)) as H2.
  pose proof (string_member_length "id" (id t) (String "," m2)) as H1.
  fold m5 in H5. fold m4 in H4. fold m3 in H3. fold m2 in H2.
  change (String.length (String "{" ?x)) with (S (String.length x)).
  change (String.length (String "}" k)) with (S (String.length k)) in H5.
  change (String.length (String "," ?x)) with (S (String.length x)) in *.
  lia.
Qed.

Lemma elements_text_length (l : list Todo) :
  forall t k, 9 + List.length l <= String.length (elements_text t l k).
Proof.
  induction l as [|t' l IH]; intros t k; simpl elements_text.
  - pose proof (todo_text_length t (String "]" k)) as H.
    change (String.length (String "]" k)) with (S (String.length k)) in H.
    simpl List.length. lia.
  - specialize (IH t' k).
    pose proof (todo_text_length t (String "," (elements_text t' l k))) as H.
    change (String.length (String "," ?x)) with (S (String.length x)) in H.
    simpl List.length. lia.
Qed.

(** [JSON.parse] reads back what [JSON.stringify] wrote for a
    collection. *)
Lemma parse_stringify_todos (l : list Todo) :
  parse (stringify_todos l) = Some (JArray (List.map to_json l)).
Proof.
  destruct l as [|t l]; [reflexivity|].
  unfold parse, parse_text, fuel_for. rewrite stringify_todos_text.
  pose proof (elements_text_length l t "") as Hlen.
  set (body := elements_text t l "") in *.
  assert (Hfuel : exists n, 2 * String.length (String "[" body) + 1
                            = S (8 + List.length l + n)).
  { exists (2 * String.length (String "[" body) - 8 - List.length l). simpl. lia. }
  destruct Hfuel as [n ->].
  assert (Hopen : eat "]" (skip_ws body) = None) by (subst body; by destruct l).
  rewrite (parse_value_array _ _ Hopen). subst body.
  rewrite parse_elements_todos. reflexivity.
Qed.


End Persistence.

(** *** More on the formatter and the store *)

Section StoreExtras.
Import TodoManager.

(** [formatTask] returns a text of at most 17 characters: a text of at
    most 14 characters as it is, a longer one cut to 17; two longer
    texts with the same first 14 characters are formatted alike. *)
Theorem formatTask_bounded (x : string) :
  JS.length (TodoItemFormatter.formatTask x) <= 17 /\
  (JS.length x <= 14 -> TodoItemFormatter.formatTask x = x) /\
  (14 < JS.length x -> JS.length (TodoItemFormatter.formatTask x) = 17) /\
  (forall y,
     14 < JS.length x -> 14 < JS.length y -> JS.slice 0 14 x = JS.slice 0 14 y ->
     TodoItemFormatter.formatTask x = TodoItemFormatter.formatTask y).
Proof.
  unfold JS.length.
  destruct (Nat.le_gt_cases (String.length x) 14) as [Hle|Hgt].
  - rewrite (formatTask_short x Hle). repeat split; auto; lia.
  - destruct (formatTask_long x Hgt) as [Hx Hlen]. rewrite Hlen.
    repeat split; auto; try lia.
    intros y _ Hy Hxy. destruct (formatTask_long y Hy) as [Hy' _].
    rewrite Hx, Hy'. unfold JS.slice in Hxy. simpl in Hxy. by rewrite Hxy.
Qed.

Lemma formatTask_bounded_witness :
  TodoItemFormatter.formatTask "Buy milk" = "Buy milk" /\
  TodoItemFormatter.formatTask "This is a very long task description"
    = TodoItemFormatter.formatTask "This is a very short task".
Proof.
  destruct (formatTask_bounded "Buy milk") as (_ & Hshort & _).
  destruct (formatTask_bounded "This is a very long task description") as (_ & _ & _ & Hsame).
  split.
  - apply Hshort. vm_compute. lia.
  - apply Hsame; [vm_compute; lia | vm_compute; lia | reflexivity].
Defined.

(** A property every record [addTodo] makes has, and that assigning the
    task or the completed field keeps, holds of every record of a
    reachable state. *)
Lemma reachable_Forall (P : Todo -> Prop) :
  (forall r1 r2 k d st, P (snd (addTodo r1 r2 k d st))) ->
  (forall k t, P t -> P (set_task k t)) ->
  (forall b t, P t -> P (set_completed b t)) ->
  forall st, reachable st -> List.Forall P (todos st).
Proof.
  intros Hadd Htask Hcompleted.
  assert (Hmut : forall p f l, (forall t, P t -> P (f t)) ->
                               List.Forall P l -> List.Forall P (mutate_found p f l)).
  { intros p f l Hf. induction l as [|t l IH]; simpl; intros H; [constructor|].
    apply List.Forall_cons_iff in H as [Ht Hl].
    destruct (p t); constructor; auto. }
  induction 1 as [ls Hls|r1 r2 k d st Hr IH|i k st Hr IH|i st Hr IH|i st Hr IH|st Hr IH].
  - constructor.
  - simpl. apply List.Forall_app. split; [done|]. constructor; [|constructor].
    apply (Hadd r1 r2 k d st).
  - unfold editTodo. destruct (find (has_id i) (todos st)); simpl; [|done].
    apply Hmut; auto.
  - simpl. apply List.Forall_forall. intros t Ht. apply List.filter_In in Ht as [Ht _].
    rewrite List.Forall_forall in IH. auto.
  - unfold toggleTodoStatus. destruct (find (has_id i) (todos st)); simpl; [|done].
    apply Hmut; auto.
  - unfold clearAllTodos. destruct (0 <? length (todos st))%nat; simpl; [constructor|done].
Qed.

(** [formatDueDate] never returns the empty string and returns its own
    results as they are; so no record of a reachable state has an empty
    due date, and the due-date cell of its row is the stored due date. *)
Theorem formatDueDate_never_empty (dueDate0 : option string) (st : state) :
  TodoItemFormatter.formatDueDate dueDate0 <> "" /\
  TodoItemFormatter.formatDueDate (Some (TodoItemFormatter.formatDueDate dueDate0))
    = TodoItemFormatter.formatDueDate dueDate0 /\
  (reachable st ->
   forall t, In t (todos st) ->
     dueDate t <> "" /\ UIManager.dueDate_cell (UIManager.display_row t) = dueDate t).
Proof.
  assert (Hne : forall d, TodoItemFormatter.formatDueDate d <> "").
  { intros [d|]; simpl; [|discriminate].
    destruct (String.eqb d "") eqn:Hd; [discriminate|]. by apply String.eqb_neq. }
  assert (Hid : forall s, s <> "" -> TodoItemFormatter.formatDueDate (Some s) = s).
  { intros s Hs. simpl. apply String.eqb_neq in Hs. by rewrite Hs. }
  split; [apply Hne|]. split; [apply Hid, Hne|].
  intros Hr t Ht.
  assert (H : List.Forall (fun t => dueDate t <> "") (todos st)).
  { apply reachable_Forall; auto. intros; apply Hne. }
  rewrite List.Forall_forall in H. specialize (H t Ht). split; [done|].
  simpl. by apply Hid.
Qed.

Lemma formatDueDate_never_empty_witness :
  UIManager.dueDate_cell
    (UIManager.display_row (mkTodo "iabc" "This is a very..." "No due date" false "pending"))
    = "No due date".
Proof.
  destruct (formatDueDate_never_empty None Scenario.store2) as (_ & _ & Hcell).
  apply Hcell.
  - unfold Scenario.store2, Scenario.store1. do 2 apply reach_addTodo.
    apply reach_new. reflexivity.
  - vm_compute. tauto.
Defined.

(** The id [getRandomId] makes has at most 26 characters, and none at
    all when both renderings have at most two characters, as the
    rendering [0] of the number 0 has. *)
Theorem getRandomId_length (r1 r2 : string) :
  JS.length (getRandomId r1 r2) <= 26 /\
  (JS.length r1 <= 2 -> JS.length r2 <= 2 -> getRandomId r1 r2 = "").
Proof.
  assert (Hsub : forall n m s, String.length (String.substring n m s) <= m).
  { induction n as [|n IHn]; induction m as [|m IHm]; intros [|c s]; simpl; try lia.
    - specialize (IHm s). lia.
    - apply IHn.
    - apply IHn. }
  assert (Hshort : forall m s, String.length s <= 2 -> String.substring 2 m s = "").
  { intros m [|a [|b [|c s]]]; simpl; try lia; by destruct m. }
  unfold getRandomId, JS.substring, JS.length. split.
  - rewrite string_length_app.
    pose proof (Hsub 2 13 r1). pose proof (Hsub 2 13 r2). simpl (15 - 2). lia.
  - intros H1 H2. by rewrite !Hshort.
Qed.

Lemma getRandomId_length_witness : getRandomId "0" "0" = "".
Proof.
  apply (proj2 (getRandomId_length "0" "0")); vm_compute; lia.
Defined.

(** [clearAllTodos] leaves the empty collection, which every criterion
    filters to nothing; it writes the text of the empty array when the
    collection held a record, and changes nothing, the key-value store
    included, when it held none, so a second call never writes. *)
Theorem clearAllTodos_empties (st : state) :
  todos (clearAllTodos st) = [] /\
  (forall status, filterTodos status (clearAllTodos st) = []) /\
  (todos st <> [] ->
     LocalStorage.getItem "todos" (localStorage (clearAllTodos st)) = Some "[]" /\
     writes_since st (clearAllTodos st) [("todos", "[]")]) /\
  (todos st = [] -> clearAllTodos st = st) /\
  clearAllTodos (clearAllTodos st) = clearAllTodos st.
Proof.
  assert (Hempty : todos (clearAllTodos st) = []).
  { unfold clearAllTodos. destruct (todos st) eqn:Hl; simpl; [by rewrite Hl|done]. }
  split; [exact Hempty|]. split; [|split; [|split]].
  - intros status. unfold filterTodos. rewrite Hempty.
    by repeat destruct (String.eqb _ _).
  - intros Hne. unfold clearAllTodos. destruct (todos st); [done|]. simpl.
    split; [|reflexivity].
    unfold LocalStorage.getItem, LocalStorage.setItem. simpl. apply lookup_insert_eq.
  - intros Hl. unfold clearAllTodos. by rewrite Hl.
  - unfold clearAllTodos at 1. by rewrite Hempty.
Qed.

Lemma clearAllTodos_empties_witness :
  LocalStorage.getItem "todos" (localStorage (clearAllTodos Scenario.store2)) = Some "[]" /\
  clearAllTodos Scenario.store0 = Scenario.store0.
Proof.
  destruct (clearAllTodos_empties Scenario.store2) as (_ & _ & Hfull & _).
  destruct (clearAllTodos_empties Scenario.store0) as (_ & _ & _ & Hnone & _).
  split; [apply Hfull; discriminate | apply Hnone; reflexivity].
Defined.

Lemma saveToLocalStorage_other_key (key : string) (st : state) :
  key <> "todos" ->
  LocalStorage.getItem key (localStorage (saveToLocalStorage st))
    = LocalStorage.getItem key (localStorage st).
Proof.
  intros Hkey. unfold saveToLocalStorage, LocalStorage.getItem, LocalStorage.setItem. simpl.
  by apply lookup_insert_ne.
Qed.

(** The store writes under the key [todos] only: whatever the
    key-value store holds under another key is as it was after each of
    the five mutating methods. *)
Theorem store_keeps_other_keys (key : string) (st : state) (Hkey : key <> "todos") :
  (forall r1 r2 task dueDate,
     LocalStorage.getItem key (localStorage (fst (addTodo r1 r2 task dueDate st)))
       = LocalStorage.getItem key (localStorage st)) /\
  (forall i updatedTask,
     LocalStorage.getItem key (localStorage (fst (editTodo i updatedTask st)))
       = LocalStorage.getItem key (localStorage st)) /\
  (forall i,
     LocalStorage.getItem key (localStorage (deleteTodo i st))
       = LocalStorage.getItem key (localStorage st)) /\
  (forall i,
     LocalStorage.getItem key (localStorage (toggleTodoStatus i st))
       = LocalStorage.getItem key (localStorage st)) /\
  LocalStorage.getItem key (localStorage (clearAllTodos st))
    = LocalStorage.getItem key (localStorage st).
Proof.
  repeat split; intros.
  - apply (saveToLocalStorage_other_key key (set_todos _ st) Hkey).
  - unfold editTodo. destruct (find _ _); [|done].
    apply (saveToLocalStorage_other_key key (set_todos _ st) Hkey).
  - apply (saveToLocalStorage_other_key key (set_todos _ st) Hkey).
  - unfold toggleTodoStatus. destruct (find _ _); [|done].
    apply (saveToLocalStorage_other_key key (set_todos _ st) Hkey).
  - unfold clearAllTodos. destruct (0 <? _)%nat; [|done].
    apply (saveToLocalStorage_other_key key (set_todos _ st) Hkey).
Qed.

Lemma store_keeps_other_keys_witness :
  LocalStorage.getItem "theme" (localStorage (deleteTodo "iabc" Scenario.store2))
    = LocalStorage.getItem "theme" (localStorage Scenario.store2).
Proof.
  assert (Hkey : "theme" <> "todos") by discriminate.
  destruct (store_keeps_other_keys "theme" Scenario.store2 Hkey) as (_ & _ & Hdelete & _).
  apply Hdelete.
Defined.

(** In every reachable state the stored text is the serialisation of
    the collection, unless the collection is empty and the key-value
    store still holds no text under the key. *)
Lemma reachable_stored (st : state) :
  reachable st ->
  persisted st \/
  (todos st = [] /\ LocalStorage.getItem "todos" (localStorage st) = None).
Proof.
  induction 1 as [ls Hls|r1 r2 k d st Hr IH|i k st Hr IH|i st Hr IH|i st Hr IH|st Hr IH].
  - right. by split.
  - left. apply (saveToLocalStorage_persisted (set_todos _ st)).
  - unfold editTodo. destruct (find _ _); [|done].
    left. apply (saveToLocalStorage_persisted (set_todos _ st)).
  - left. apply (saveToLocalStorage_persisted (set_todos _ st)).
  - unfold toggleTodoStatus. destruct (find _ _); [|done].
    left. apply (saveToLocalStorage_persisted (set_todos _ st)).
  - unfold clearAllTodos. destruct (0 <? _)%nat; [|done].
    left. apply (saveToLocalStorage_persisted (set_todos _ st)).
Qed.

(** A store constructed over what a state persisted holds the
    collection of that state. *)
Lemma constructor_persisted (st : state) :
  persisted st ->
  constructor (localStorage st)
    = Constructed {| todos := todos st; localStorage := localStorage st |}.
Proof.
  unfold persisted, constructor, parse_stored. intros ->.
  rewrite parse_stringify_todos. simpl JSON.truthy. cbv iota.
  by rewrite todos_of_json_to_json.
Qed.

Lemma constructor_reachable (st : state) :
  reachable st ->
  constructor (localStorage st)
    = Constructed {| todos := todos st; localStorage := localStorage st |}.
Proof.
  intros Hst. destruct (reachable_stored st Hst) as [Hp|[Hl Hnone]].
  - by apply constructor_persisted.
  - unfold constructor, parse_stored. rewrite Hnone, Hl. reflexivity.
Qed.

(** In every reachable state the stored text is the serialisation of
    the collection, unless the collection is empty and nothing was ever
    stored under the key; and constructing a new store over the
    key-value store of the state gives back its collection: the records
    with their five fields, in order. *)
Theorem reload_reproduces_collection (st : state) (Hst : reachable st) :
  (LocalStorage.getItem "todos" (localStorage st) = Some (stringify_todos (todos st)) \/
   (todos st = [] /\ LocalStorage.getItem "todos" (localStorage st) = None)) /\
  constructor (localStorage st)
    = Constructed {| todos := todos st; localStorage := localStorage st |}.
Proof.
  split.
  - destruct (reachable_stored st Hst) as [Hp|Hnew]; [left; exact Hp | right; exact Hnew].
  - by apply constructor_reachable.
Qed.

Lemma reload_reproduces_collection_witness :
  constructor (localStorage Scenario.store2)
    = Constructed {| todos := todos Scenario.store2;
                     localStorage := localStorage Scenario.store2 |}.
Proof. exact (proj2 (reload_reproduces_collection Scenario.store2 store2_reachable)). Defined.

Lemma filter_length_le {A : Type} (p : A -> bool) (l : list A) :
  List.length (List.filter p l) <= List.length l.
Proof. induction l as [|a l IH]; simpl; [lia|]. destruct (p a); simpl; lia. Qed.

Lemma filter_id_present (i : string) (l : list Todo) :
  In i (List.map id l) ->
  List.length (List.filter (fun todo => negb (String.eqb (id todo) i)) l) < List.length l.
Proof.
  induction l as [|t l IH]; simpl; [tauto|]. intros Hin.
  destruct (String.eqb (id t) i) eqn:Ht; simpl.
  - pose proof (filter_length_le (fun todo => negb (String.eqb (id todo) i)) l). lia.
  - apply String.eqb_neq in Ht. destruct Hin as [Hin|Hin]; [congruence|].
    specialize (IH Hin). lia.
Qed.

(** Deleting the record [addTodo] has just added, by its id, gives back
    the earlier collection when that id was new; when an earlier record
    had the same id, the earlier record is deleted with it. *)
Theorem add_then_delete (r1 r2 task0 : string) (dueDate0 : option string) (st : state) :
  todos (deleteTodo (getRandomId r1 r2) (fst (addTodo r1 r2 task0 dueDate0 st)))
    = todos (deleteTodo (getRandomId r1 r2) st) /\
  (~ In (getRandomId r1 r2) (ids st) ->
     todos (deleteTodo (getRandomId r1 r2) (fst (addTodo r1 r2 task0 dueDate0 st)))
       = todos st) /\
  (In (getRandomId r1 r2) (ids st) ->
     List.length (todos (deleteTodo (getRandomId r1 r2) (fst (addTodo r1 r2 task0 dueDate0 st))))
       < List.length (todos st)).
Proof.
  assert (H : todos (deleteTodo (getRandomId r1 r2) (fst (addTodo r1 r2 task0 dueDate0 st)))
              = todos (deleteTodo (getRandomId r1 r2) st)).
  { simpl. rewrite List.filter_app. simpl. rewrite String.eqb_refl. simpl.
    apply List.app_nil_r. }
  split; [exact H|]. rewrite H. split.
  - intros Hnew. simpl. by apply filter_id_absent.
  - intros Hold. simpl. by apply filter_id_present.
Qed.

Lemma add_then_delete_witness :
  todos (deleteTodo (getRandomId "0.i" "0.abc")
           (fst (addTodo "0.i" "0.abc" "Water the plants" None Scenario.store1)))
    = todos Scenario.store1 /\
  List.length (todos (deleteTodo (getRandomId "0.i" "0.i") Scenario.collided))
    < List.length (todos Scenario.first_added).
Proof.
  split.
  - apply (add_then_delete "0.i" "0.abc" "Water the plants" None Scenario.store1).
    vm_compute. intuition discriminate.
  - apply (add_then_delete "0.i" "0.i" "second" None Scenario.first_added).
    vm_compute. tauto.
Defined.

(** The record [addTodo] adds is pending: it comes last among the
    pending records and last in the whole collection, and the completed
    records are as they were. *)
Theorem add_is_pending (r1 r2 task0 : string) (dueDate0 : option string) (st : state) :
  filterTodos "pending" (fst (addTodo r1 r2 task0 dueDate0 st))
    = filterTodos "pending" st ++ [snd (addTodo r1 r2 task0 dueDate0 st)] /\
  filterTodos "completed" (fst (addTodo r1 r2 task0 dueDate0 st))
    = filterTodos "completed" st /\
  filterTodos "all" (fst (addTodo r1 r2 task0 dueDate0 st))
    = filterTodos "all" st ++ [snd (addTodo r1 r2 task0 dueDate0 st)].
Proof.
  unfold filterTodos. simpl. rewrite !List.filter_app. simpl.
  by rewrite List.app_nil_r.
Qed.

(** [toggleTodoStatus] moves the first record with the id from one
    filtered view to the other: the view it leaves has one record less
    and the view it joins one more. *)
Theorem toggle_moves_record (st : state) (i : string) (Hin : In i (ids st)) :
  exists todo,
    find (has_id i) (todos st) = Some todo /\
    List.length (filterTodos (if completed todo then "completed" else "pending") st)
      = S (List.length (filterTodos (if completed todo then "completed" else "pending")
                          (toggleTodoStatus i st))) /\
    List.length (filterTodos (if completed todo then "pending" else "completed")
                   (toggleTodoStatus i st))
      = S (List.length (filterTodos (if completed todo then "pending" else "completed") st)).
Proof.
  destruct (find_Some i (todos st) Hin) as (before & todo & after & Hl & Hb & Hid & Hf).
  exists todo. split; [exact Hf|].
  assert (Ht : todos (toggleTodoStatus i st)
               = before ++ set_completed (negb (completed todo)) todo :: after).
  { unfold toggleTodoStatus. rewrite Hf. simpl. rewrite Hl. by rewrite mutate_found_first. }
  destruct (completed todo) eqn:Hc; unfold filterTodos; simpl; rewrite Ht, Hl;
    rewrite !List.filter_app; simpl; rewrite Hc; simpl;
    rewrite !List.length_app; simpl; lia.
Qed.

Lemma toggle_moves_record_witness :
  exists todo,
    find (has_id "iabc") (todos Scenario.store2) = Some todo /\
    List.length (filterTodos (if completed todo then "completed" else "pending") Scenario.store2)
      = S (List.length (filterTodos (if completed todo then "completed" else "pending")
                          (toggleTodoStatus "iabc" Scenario.store2))).
Proof.
  destruct (toggle_moves_record Scenario.store2 "iabc") as (todo & Hf & Hleave & _).
  { vm_compute. tauto. }
  exists todo. split; assumption.
Defined.

End StoreExtras.

(** *** More on the page *)

Section PageExtras.
Import TodoManager UIManager.

Lemma displayTodos_eq (l : list Todo) (ui : UIManager.state) :
  displayTodos l ui = set_todosListBody (body_of l) ui.
Proof. by destruct l. Qed.

Lemma displayTodos_body (l : list Todo) (ui : UIManager.state) :
  todosListBody (displayTodos l ui) = body_of l.
Proof. by destruct l. Qed.

Lemma showAllTodos_body (ui : UIManager.state) :
  todosListBody (showAllTodos ui) = body_of (todos (todoManager ui)).
Proof. apply displayTodos_body. Qed.

Lemma showAllTodos_todoManager (ui : UIManager.state) :
  todoManager (showAllTodos ui) = todoManager ui.
Proof. apply displayTodos_todoManager. Qed.

Lemma handleAddTodo_text (r1 r2 : string) (ui : UIManager.state) :
  taskInput_value ui <> "" ->
  handleAddTodo r1 r2 ui
  = showAlertMessage "Task added successfully" "success"
      (set_inputs "" ""
         (set_todosListBody
            (body_of (todos (fst (addTodo r1 r2 (taskInput_value ui)
                                    (Some (dateInput_value ui)) (todoManager ui)))))
            (set_todoManager
               (fst (addTodo r1 r2 (taskInput_value ui) (Some (dateInput_value ui))
                       (todoManager ui)))
               ui))).
Proof.
  intros Hne. unfold handleAddTodo. apply String.eqb_neq in Hne. rewrite Hne.
  unfold addTodo. cbv zeta beta iota. unfold showAllTodos. by rewrite displayTodos_eq.
Qed.

(** After [handleToggleStatus], [handleDeleteTodo], [handleClearAllTodos],
    [handleUpdate] and a [handleAddTodo] with a task text, the list body
    shows the whole collection of the store, whatever filtered view it
    showed before. *)
Theorem handlers_show_whole_collection (ui : UIManager.state) :
  (forall i,
     todosListBody (handleToggleStatus i ui)
       = body_of (todos (todoManager (handleToggleStatus i ui)))) /\
  (forall i,
     todosListBody (handleDeleteTodo i ui)
       = body_of (todos (todoManager (handleDeleteTodo i ui)))) /\
  todosListBody (handleClearAllTodos ui)
    = body_of (todos (todoManager (handleClearAllTodos ui))) /\
  todosListBody (handleUpdate ui) = body_of (todos (todoManager (handleUpdate ui))) /\
  (forall r1 r2,
     taskInput_value ui <> "" ->
     todosListBody (handleAddTodo r1 r2 ui)
       = body_of (todos (todoManager (handleAddTodo r1 r2 ui)))).
Proof.
  split; [|split; [|split; [|split]]].
  - intros i. unfold handleToggleStatus.
    by rewrite showAllTodos_body, showAllTodos_todoManager.
  - intros i. unfold handleDeleteTodo.
    by rewrite showAllTodos_body, showAllTodos_todoManager.
  - unfold handleClearAllTodos, showAlertMessage. simpl.
    by rewrite showAllTodos_body, showAllTodos_todoManager.
  - unfold handleUpdate. simpl.
    by rewrite showAllTodos_body, showAllTodos_todoManager.
  - intros r1 r2 Hne. unfold handleAddTodo. apply String.eqb_neq in Hne. rewrite Hne.
    simpl. by rewrite showAllTodos_body, showAllTodos_todoManager.
Qed.

Lemma handlers_show_whole_collection_witness :
  todosListBody (handleAddTodo "0.x" "0.y" (step (Type_task "Water the plants") Scenario.page))
    = body_of (todos (todoManager
        (handleAddTodo "0.x" "0.y" (step (Type_task "Water the plants") Scenario.page)))).
Proof.
  destruct (handlers_show_whole_collection (step (Type_task "Water the plants") Scenario.page))
    as (_ & _ & _ & _ & Hadd).
  apply Hadd. vm_compute. discriminate.
Defined.

Lemma body_of_ids (l k : list Todo) :
  body_of l = body_of k -> List.map id l = List.map id k.
Proof.
  intros H.
  assert (Hf : forall l0,
             match body_of l0 with
             | Rows rows => List.map data_id rows
             | NoTaskFound => []
             end = List.map id l0).
  { intros [|a l0]; simpl; [done|]. f_equal. by rewrite List.map_map. }
  by rewrite <- (Hf l), <- (Hf k), H.
Qed.

(** [handleFilterTodos] leaves the store as it is and shows the records
    the criterion selects, in order: the placeholder when it selects
    none, so for every criterion other than the three, and otherwise
    rows whose ids are ids of the collection. *)
Theorem handleFilterTodos_view (status : string) (ui : UIManager.state) :
  todoManager (handleFilterTodos status ui) = todoManager ui /\
  todosListBody (handleFilterTodos status ui)
    = body_of (filterTodos status (todoManager ui)) /\
  (status <> "all" -> status <> "pending" -> status <> "completed" ->
     todosListBody (handleFilterTodos status ui) = NoTaskFound) /\
  (forall rows,
     todosListBody (handleFilterTodos status ui) = Rows rows ->
     sublist (List.map data_id rows) (ids (todoManager ui))).
Proof.
  unfold handleFilterTodos. rewrite displayTodos_body, displayTodos_todoManager.
  split; [done|]. split; [done|]. split.
  - intros Ha Hp Hc. unfold filterTodos.
    apply String.eqb_neq in Ha, Hp, Hc. by rewrite Ha, Hp, Hc.
  - intros rows Hrows.
    assert (Hsub : sublist (filterTodos status (todoManager ui)) (todos (todoManager ui))).
    { unfold filterTodos. repeat destruct (String.eqb status _);
        try apply filter_sublist; [done|apply sublist_nil_l]. }
    destruct (filterTodos status (todoManager ui)) as [|t l]; [discriminate|].
    simpl in Hrows. injection Hrows as <-.
    change (display_row t :: List.map display_row l) with (List.map display_row (t :: l)).
    rewrite List.map_map. unfold ids.
    change (List.map (fun x => data_id (display_row x)) (t :: l)) with (List.map id (t :: l)).
    clear -Hsub. induction Hsub; simpl; by constructor.
Qed.

Lemma handleFilterTodos_view_witness :
  todosListBody (handleFilterTodos "done" Scenario.page) = NoTaskFound.
Proof.
  destruct (handleFilterTodos_view "done" Scenario.page) as (_ & _ & Hother & _).
  apply Hother; discriminate.
Defined.

(** [handleEditTodo] deletes the record from the store and does not
    draw the list again: when the list body showed the whole collection
    and a record has the id, the body afterwards still shows the row of
    the deleted record and is not what the store holds. *)
Theorem handleEditTodo_stale_view (i : string) (ui : UIManager.state)
    (Hview : todosListBody ui = body_of (todos (todoManager ui)))
    (Hin : In i (ids (todoManager ui))) :
  todosListBody (handleEditTodo i ui) = todosListBody ui /\
  todoManager (handleEditTodo i ui) = deleteTodo i (todoManager ui) /\
  todosListBody (handleEditTodo i ui) <> body_of (todos (todoManager (handleEditTodo i ui))).
Proof.
  destruct (find_Some i _ Hin) as (before & todo & after & _ & _ & _ & Hf).
  unfold handleEditTodo. rewrite Hf. simpl. split; [done|]. split; [done|].
  rewrite Hview. intros Heq. apply body_of_ids in Heq.
  apply (filter_id_gone i (todos (todoManager ui))). rewrite <- Heq. exact Hin.
Qed.

Lemma handleEditTodo_stale_view_witness :
  todosListBody (handleEditTodo "iabc" Scenario.page)
    <> body_of (todos (todoManager (handleEditTodo "iabc" Scenario.page))).
Proof.
  apply (handleEditTodo_stale_view "iabc" Scenario.page).
  - reflexivity.
  - vm_compute. tauto.
Defined.



Lemma classList_swapped (a b : string) (l : list string) :
  a <> b ->
  In a (JS.classList_add a (JS.classList_remove b l)) /\
  ~ In b (JS.classList_add a (JS.classList_remove b l)).
Proof.
  intros Hab. unfold JS.classList_add, JS.classList_remove.
  set (l' := List.filter _ l).
  assert (Hb : ~ In b l').
  { subst l'. intros H. apply List.filter_In in H as [_ H].
    by rewrite String.eqb_refl in H. }
  destruct (existsb (String.eqb a) l') eqn:He.
  - split; [|done]. apply List.existsb_exists in He as (x & Hx & Heq).
    apply String.eqb_eq in Heq. by subst.
  - split.
    + apply List.in_or_app. right. by left.
    + intros H. apply List.in_app_or in H as [H|[H|[]]]; [done|congruence].
Qed.

(** A pending timeout is not cancelled when a new alert is shown: after
    two alerts, the timeout that runs first hides the second alert while
    the second alert's own timeout is still pending. *)
Theorem alert_hidden_by_earlier_timeout (m1 t1 m2 t2 : string) (ui : UIManager.state) :
  alertMessage (showAlertMessage m2 t2 (showAlertMessage m1 t1 ui))
    = Some (mkAlert t2 m2) /\
  In "show" (alertMessage_classList (showAlertMessage m2 t2 (showAlertMessage m1 t1 ui))) /\
  alertMessage (run_timeout (showAlertMessage m2 t2 (showAlertMessage m1 t1 ui)))
    = Some (mkAlert t2 m2) /\
  In "hide" (alertMessage_classList
               (run_timeout (showAlertMessage m2 t2 (showAlertMessage m1 t1 ui)))) /\
  ~ In "show" (alertMessage_classList
                 (run_timeout (showAlertMessage m2 t2 (showAlertMessage m1 t1 ui)))) /\
  List.length (timeouts (run_timeout (showAlertMessage m2 t2 (showAlertMessage m1 t1 ui))))
    = S (List.length (timeouts ui)).
Proof.
  assert (Hsh : "show" <> "hide") by discriminate.
  assert (Hhs : "hide" <> "show") by discriminate.
  split; [reflexivity|]. split; [apply (classList_swapped "show" "hide" _ Hsh)|].
  unfold run_timeout.
  assert (Ht : timeouts (showAlertMessage m2 t2 (showAlertMessage m1 t1 ui))
               = (timeouts ui ++ [3000]) ++ [3000]) by reflexivity.
  rewrite Ht. destruct (timeouts ui) as [|d ds] eqn:Hd; simpl List.app; cbv iota.
  - split; [reflexivity|]. split; [|split].
    + apply (classList_swapped "hide" "show" _ Hhs).
    + apply (classList_swapped "hide" "show" _ Hhs).
    + reflexivity.
  - split; [reflexivity|]. split; [|split].
    + apply (classList_swapped "hide" "show" _ Hhs).
    + apply (classList_swapped "hide" "show" _ Hhs).
    + simpl. rewrite !List.length_app. simpl. lia.
Qed.

Lemma length_zero_empty (s : string) : JS.length s = 0 <-> s = "".
Proof. destruct s; simpl; split; (done || discriminate). Qed.

(** A key-up in the task input does nothing at all, and shows no alert,
    unless the key is Enter and the input holds a text; then it runs
    [handleAddTodo] and nothing else, so the add button and its
    listeners are as before, also while a record is being edited. *)
Theorem keyup_enter_only_adds (r1 r2 : string) (keyCode : nat) (ui : UIManager.state) :
  (keyCode <> 13 \/ taskInput_value ui = "" -> keyup_taskInput r1 r2 keyCode ui = ui) /\
  (keyCode = 13 -> taskInput_value ui <> "" ->
     keyup_taskInput r1 r2 keyCode ui = handleAddTodo r1 r2 ui /\
     todos (todoManager (keyup_taskInput r1 r2 keyCode ui))
       = todos (todoManager ui)
         ++ [snd (addTodo r1 r2 (taskInput_value ui) (Some (dateInput_value ui))
                    (todoManager ui))] /\
     addBtn_click (keyup_taskInput r1 r2 keyCode ui) = addBtn_click ui /\
     addBtn_innerHTML (keyup_taskInput r1 r2 keyCode ui) = addBtn_innerHTML ui).
Proof.
  unfold keyup_taskInput. split.
  - intros [Hkey|Hempty].
    + apply Nat.eqb_neq in Hkey. by rewrite Hkey.
    + rewrite Hempty. by rewrite andb_false_r.
  - intros -> Hne.
    assert (Hlen : (0 <? JS.length (taskInput_value ui))%nat = true).
    { apply Nat.ltb_lt. destruct (taskInput_value ui); [done|simpl; lia]. }
    rewrite Hlen, Nat.eqb_refl. simpl andb. cbv iota. split; [reflexivity|].
    rewrite (handleAddTodo_text r1 r2 ui Hne). repeat split.
Qed.

Lemma keyup_enter_only_adds_witness :
  keyup_taskInput "0.x" "0.y" 13 Scenario.page = Scenario.page /\
  addBtn_click (keyup_taskInput "0.x" "0.y" 13
                  (step (Type_task "Water the plants") (handleEditTodo "iabc" Scenario.page)))
    = [HandleAddTodo; HandleUpdate].
Proof.
  split.
  - apply (proj1 (keyup_enter_only_adds "0.x" "0.y" 13 Scenario.page)). right. reflexivity.
  - destruct (proj2 (keyup_enter_only_adds "0.x" "0.y" 13
                       (step (Type_task "Water the plants")
                             (handleEditTodo "iabc" Scenario.page))))
      as (_ & _ & Hlisteners & _); [reflexivity | discriminate |].
    rewrite Hlisteners. reflexivity.
Defined.

(** [handleClearAllTodos] empties the collection, shows the placeholder
    row and says the records were cleared, also when there was none to
    clear; in that case the store, the key-value store included, is as
    it was. *)
Theorem handleClearAllTodos_always_reports (ui : UIManager.state) :
  todos (todoManager (handleClearAllTodos ui)) = [] /\
  todosListBody (handleClearAllTodos ui) = NoTaskFound /\
  alertMessage (handleClearAllTodos ui)
    = Some (mkAlert "success" "All todos cleared successfully") /\
  (todos (todoManager ui) = [] -> todoManager (handleClearAllTodos ui) = todoManager ui).
Proof.
  unfold handleClearAllTodos, showAllTodos. rewrite displayTodos_eq.
  assert (Hempty : todos (clearAllTodos (todoManager ui)) = []).
  { unfold clearAllTodos. destruct (todos (todoManager ui)) eqn:Hl; simpl; [by rewrite Hl|done]. }
  split; [exact Hempty|]. split; [|split; [reflexivity|]].
  - change (body_of (todos (clearAllTodos (todoManager ui))) = NoTaskFound).
    by rewrite Hempty.
  - intros Hl. change (clearAllTodos (todoManager ui) = todoManager ui).
    unfold clearAllTodos. by rewrite Hl.
Qed.

Lemma handleClearAllTodos_always_reports_witness :
  todoManager (handleClearAllTodos (UIManager.constructor Scenario.store0 "" "" "" ["hide"]))
    = Scenario.store0.
Proof.
  destruct (handleClearAllTodos_always_reports
              (UIManager.constructor Scenario.store0 "" "" "" ["hide"])) as (_ & _ & _ & Hnone).
  apply Hnone. reflexivity.
Defined.

Lemma step_reachable (e : event) (ui : UIManager.state) :
  reachable (todoManager ui) -> reachable (todoManager (step e ui)).
Proof.
  intros H. destruct e; simpl; try done.
  - unfold click_addBtn. generalize (addBtn_click ui). intros ls.
    revert ui H. induction ls as [|l ls IH]; intros ui H; simpl; [done|].
    apply IH. destruct l; unfold run_listener.
    + destruct (String.eqb (taskInput_value ui) "") eqn:Hempty.
      * unfold handleAddTodo. by rewrite Hempty.
      * apply String.eqb_neq in Hempty. rewrite (handleAddTodo_text r1 r2 ui Hempty).
        by apply (reach_addTodo r1 r2 (taskInput_value ui) (Some (dateInput_value ui))).
    + by rewrite (proj1 (handleUpdate_frame ui)).
  - unfold keyup_taskInput. destruct (_ && _); [|done].
    destruct (String.eqb (taskInput_value ui) "") eqn:Hempty.
    + unfold handleAddTodo. by rewrite Hempty.
    + apply String.eqb_neq in Hempty. rewrite (handleAddTodo_text r1 r2 ui Hempty).
      by apply (reach_addTodo r1 r2 (taskInput_value ui) (Some (dateInput_value ui))).
  - unfold handleClearAllTodos, showAllTodos. rewrite displayTodos_eq. simpl.
    by apply reach_clearAllTodos.
  - unfold handleFilterTodos. by rewrite displayTodos_eq.
  - unfold handleEditTodo. destruct (find _ _); [|done]. simpl.
    by apply reach_deleteTodo.
  - unfold handleToggleStatus, showAllTodos. rewrite displayTodos_eq. simpl.
    by apply reach_toggleTodoStatus.
  - unfold handleDeleteTodo, showAllTodos. rewrite displayTodos_eq. simpl.
    by apply reach_deleteTodo.
  - unfold run_timeout. by destruct (timeouts ui).
Qed.

(** Whatever the user does on the page loaded over a key-value store
    that holds no collection, loading the page again finds the
    collection the page held last: a store constructed over the
    key-value store the run left holds the same records. *)
Theorem page_reload_keeps_collection (ls : LocalStorage.t)
    (task0 date0 html0 : string) (classes : list string) (es : list event)
    (Hls : LocalStorage.getItem "todos" ls = None) :
  TodoManager.constructor
    (localStorage (todoManager (run es (loaded ls task0 date0 html0 classes))))
  = Constructed
      {| todos := todos (todoManager (run es (loaded ls task0 date0 html0 classes)));
         localStorage :=
           localStorage (todoManager (run es (loaded ls task0 date0 html0 classes))) |}.
Proof.
  apply constructor_reachable.
  assert (H : reachable (todoManager (loaded ls task0 date0 html0 classes))).
  { unfold loaded, UIManager.constructor, showAllTodos. rewrite displayTodos_eq. simpl.
    by apply reach_new. }
  revert H. generalize (loaded ls task0 date0 html0 classes). unfold run.
  induction es as [|e es IH]; intros ui H; simpl; [done|].
  apply IH. by apply step_reachable.
Qed.

Lemma page_reload_keeps_collection_witness :
  TodoManager.constructor
    (localStorage (todoManager
       (run [Type_task "Water the plants"; Click_addBtn "0.x" "0.y"; Click_toggle "xy"]
            (loaded Scenario.empty_storage "" "" "" ["hide"]))))
  = Constructed
      {| todos := [mkTodo "xy" "Water the plan..." "No due date" true "pending"];
         localStorage :=
           localStorage (todoManager
             (run [Type_task "Water the plants"; Click_addBtn "0.x" "0.y"; Click_toggle "xy"]
                  (loaded Scenario.empty_storage "" "" "" ["hide"]))) |}.
Proof.
  apply (page_reload_keeps_collection Scenario.empty_storage "" "" "" ["hide"]
           [Type_task "Water the plants"; Click_addBtn "0.x" "0.y"; Click_toggle "xy"]).
  reflexivity.
Defined.

End PageExtras.

(** *** The theme switcher *)

Section ThemeExtras.
Import ThemeSwitcher.

(** The theme chosen last is applied again when the page is loaded
    again, whatever theme the page declares, unless the chosen element's
    [theme] attribute is the empty string: that name is stored but not
    applied.  An element with no [theme] attribute makes the theme
    [null]. With nothing stored the page keeps the theme it declares. *)
Theorem theme_restored_on_reload (attr html_theme : option string) (st : state) :
  data_theme (click attr st) = Some (to_string attr) /\
  getThemeFromLocalStorage (click attr st) = Some (to_string attr) /\
  (to_string attr <> "" ->
     data_theme (constructor html_theme (localStorage (click attr st)))
       = Some (to_string attr)) /\
  (to_string attr = "" ->
     data_theme (constructor html_theme (localStorage (click attr st))) = html_theme) /\
  (attr = None ->
     data_theme (constructor html_theme (localStorage (click attr st))) = Some "null") /\
  (getThemeFromLocalStorage st = None ->
     constructor html_theme (localStorage st)
       = {| data_theme := html_theme; localStorage := localStorage st |}).
Proof.
  assert (Hget : getThemeFromLocalStorage (click attr st) = Some (to_string attr)).
  { unfold getThemeFromLocalStorage, click, saveThemeToLocalStorage,
      LocalStorage.getItem, LocalStorage.setItem. simpl. apply lookup_insert_eq. }
  assert (Hload : forall ls, LocalStorage.getItem "theme" ls = Some (to_string attr) ->
                  data_theme (constructor html_theme ls)
                  = if String.eqb (to_string attr) "" then html_theme
                    else Some (to_string attr)).
  { intros ls Hls. unfold constructor, init, getThemeFromLocalStorage. simpl.
    rewrite Hls. by destruct (String.eqb (to_string attr) ""). }
  split; [reflexivity|]. split; [exact Hget|].
  split; [|split; [|split]].
  - intros Hne. rewrite (Hload _ Hget). apply String.eqb_neq in Hne. by rewrite Hne.
  - intros He. rewrite (Hload _ Hget). apply String.eqb_eq in He. by rewrite He.
  - intros ->. by rewrite (Hload _ Hget).
  - intros Hnone. unfold constructor, init, getThemeFromLocalStorage in *. simpl.
    by rewrite Hnone.
Qed.

Lemma theme_restored_on_reload_witness :
  data_theme (constructor (Some "light")
                (localStorage (click (Some "night") (mk (Some "light") Scenario.empty_storage))))
    = Some "night" /\
  data_theme (constructor (Some "light")
                (localStorage (click (Some "") (mk (Some "light") Scenario.empty_storage))))
    = Some "light" /\
  constructor (Some "light") Scenario.empty_storage = mk (Some "light") Scenario.empty_storage.
Proof.
  split; [|split].
  - destruct (theme_restored_on_reload (Some "night") (Some "light")
                (mk (Some "light") Scenario.empty_storage)) as (_ & _ & H & _).
    apply H. discriminate.
  - destruct (theme_restored_on_reload (Some "") (Some "light")
                (mk (Some "light") Scenario.empty_storage)) as (_ & _ & _ & H & _).
    apply H. reflexivity.
  - destruct (theme_restored_on_reload None (Some "light")
                (mk (Some "light") Scenario.empty_storage)) as (_ & _ & _ & _ & _ & H).
    apply (H eq_refl).
Defined.

(** The theme and the collection do not disturb each other in the
    key-value store: choosing a theme leaves what a new store parses as
    its collection, and the five mutating methods of the store leave the
    theme a new page applies. *)
Theorem theme_and_collection_independent (attr html_theme : option string)
    (st : state) (m : TodoManager.state) :
  TodoManager.parse_stored (localStorage (click attr st))
    = TodoManager.parse_stored (localStorage st) /\
  (forall r1 r2 task dueDate,
     data_theme (constructor html_theme
                   (TodoManager.localStorage (fst (TodoManager.addTodo r1 r2 task dueDate m))))
     = data_theme (constructor html_theme (TodoManager.localStorage m))) /\
  (forall i updatedTask,
     data_theme (constructor html_theme
                   (TodoManager.localStorage (fst (TodoManager.editTodo i updatedTask m))))
     = data_theme (constructor html_theme (TodoManager.localStorage m))) /\
  (forall i,
     data_theme (constructor html_theme
                   (TodoManager.localStorage (TodoManager.deleteTodo i m)))
     = data_theme (constructor html_theme (TodoManager.localStorage m))) /\
  (forall i,
     data_theme (constructor html_theme
                   (TodoManager.localStorage (TodoManager.toggleTodoStatus i m)))
     = data_theme (constructor html_theme (TodoManager.localStorage m))) /\
  data_theme (constructor html_theme (TodoManager.localStorage (TodoManager.clearAllTodos m)))
    = data_theme (constructor html_theme (TodoManager.localStorage m)).
Proof.
  assert (Hkey : "theme" <> "todos") by discriminate.
  assert (Hload : forall ls ls',
            LocalStorage.getItem "theme" ls' = LocalStorage.getItem "theme" ls ->
            constructor html_theme ls' = mk (data_theme (constructor html_theme ls)) ls').
  { intros ls ls' H. unfold constructor, init, getThemeFromLocalStorage. simpl. rewrite H.
    destruct (LocalStorage.getItem "theme" ls) as [t|]; [|done].
    by destruct (String.eqb t ""). }
  assert (Hsave : forall l m0,
            LocalStorage.getItem "theme"
              (TodoManager.localStorage (TodoManager.saveToLocalStorage (TodoManager.set_todos l m0)))
            = LocalStorage.getItem "theme" (TodoManager.localStorage m0)).
  { intros l m0. apply (saveToLocalStorage_other_key "theme" (TodoManager.set_todos l m0) Hkey). }
  split; [|split; [|split; [|split; [|split]]]].
  - unfold TodoManager.parse_stored, click, saveThemeToLocalStorage,
      LocalStorage.getItem, LocalStorage.setItem. simpl.
    by rewrite lookup_insert_ne.
  - intros. unfold TodoManager.addTodo. simpl fst.
    by rewrite (Hload (TodoManager.localStorage m) _ (Hsave _ m)).
  - intros. unfold TodoManager.editTodo. destruct (TodoManager.find _ _); [|done].
    simpl fst. by rewrite (Hload (TodoManager.localStorage m) _ (Hsave _ m)).
  - intros. unfold TodoManager.deleteTodo.
    by rewrite (Hload (TodoManager.localStorage m) _ (Hsave _ m)).
  - intros. unfold TodoManager.toggleTodoStatus. destruct (TodoManager.find _ _); [|done].
    by rewrite (Hload (TodoManager.localStorage m) _ (Hsave _ m)).
  - unfold TodoManager.clearAllTodos. destruct (0 <? _)%nat; [|done].
    by rewrite (Hload (TodoManager.localStorage m) _ (Hsave _ m)).
Qed.

End ThemeExtras.
